(** * surf.new frontend: the settings drawer and the API rewrite base

    A shallow embedding of two source files of the surf.new frontend:

    - [next.config.js]: [computeApiBaseUrl], the base URL of the rewrites;
    - the settings drawer ([SettingsButton] / [SettingInput] /
      [SettingsContent]): the React state of [SettingsContent], its three
      selection effects, the asynchronous Ollama model fetch, the
      per-field handler and [handleSave].

    JS objects used as dictionaries are finite maps ([gmap string _]); arrays
    are lists; [undefined] / [null] is [None].  The prototype of such an
    object is [Object.prototype], and it is modelled in the two places where
    it decides what is stored or shown: the assignment [acc[key] = ...] of
    the defaults reduce ([assign]) and the test on the stored API key
    ([storedKey]).  Elsewhere a name that an object only inherits is treated
    as a missing key.  React is modelled by explicit
    state passing: an event queues state updates, which are applied in one
    batch (the automatic batching of React 18 and later, also after an
    [await]); the component re-renders, and every effect whose dependency
    array changed runs on the values of that render, possibly queueing
    further updates, until no dependency changes any more.  A request to
    [/api/ollama/models] is in flight from the effect that starts it to the
    event that settles it; nothing in the component cancels one.  The mount
    effect that loads the catalog is modelled on its own ([Mount]); the
    events of [step] act on any state, with or without the catalog. *)

From Stdlib Require Import QArith.
From stdpp Require Import base option list gmap strings.

(** ** JavaScript values *)

Module JS.

(** [number]: an IEEE double is NaN, an infinity, or a finite value, which
    is a rational.  [Math.min] / [Math.max] and the comparisons never
    round, so they are exact on this representation.  The two zeros are
    identified, as [===] does. *)
Inductive number : Type :=
| NaN
| NegInfinity
| Finite (q : Q)
| Infinity.

Definition isNaN (a : number) : bool :=
  match a with NaN => true | _ => false end.

(** [a < b]; false as soon as one side is NaN. *)
Definition number_lt (a b : number) : bool :=
  match a, b with
  | NaN, _ | _, NaN => false
  | _, NegInfinity => false
  | NegInfinity, _ => true
  | Infinity, _ => false
  | _, Infinity => true
  | Finite p, Finite q => match (p ?= q)%Q with Lt => true | _ => false end
  end.

(** [a <= b]; false as soon as one side is NaN. *)
Definition number_le (a b : number) : bool :=
  negb (isNaN a) && negb (isNaN b) && negb (number_lt b a).

(** [Math.min(a, b)] and [Math.max(a, b)]: NaN if either argument is. *)
Definition Math_min (a b : number) : number :=
  if isNaN a || isNaN b then NaN else if number_lt b a then b else a.

Definition Math_max (a b : number) : number :=
  if isNaN a || isNaN b then NaN else if number_lt a b then b else a.

(** Truthiness of a possibly undefined string: [undefined] and the empty
    string are falsy. *)
Definition truthy (o : option string) : bool :=
  match o with
  | Some s => negb (String.eqb s "")
  | None => false
  end.

(** [s.startsWith(p)] *)
Definition startsWith (s p : string) : bool := String.prefix p s.

(** [arr.includes(x)] on an array of strings, [x] possibly undefined. *)
Definition includes (arr : list string) (x : option string) : bool :=
  match x with
  | Some s => bool_decide (s ∈ arr)
  | None => false
  end.

(** A value of type [number | string] (the [any] of a settings mapping). *)
Inductive value : Type :=
| VNum (n : number)
| VStr (s : string).

(** The property names every plain object inherits from
    [Object.prototype].  Reading one of them on an object that has no own
    property of that name gives the inherited member: a function, or for
    [__proto__] the prototype itself; all of them are truthy. *)
Definition Object_prototype : list string :=
  [ "constructor"; "hasOwnProperty"; "isPrototypeOf"; "propertyIsEnumerable";
    "toLocaleString"; "toString"; "valueOf"; "__proto__";
    "__defineGetter__"; "__defineSetter__";
    "__lookupGetter__"; "__lookupSetter__" ].

Definition inherited (name : string) : bool :=
  bool_decide (name ∈ Object_prototype).

#[global] Instance Q_eq_dec : EqDecision Q.
Proof. solve_decision. Defined.
#[global] Instance number_eq_dec : EqDecision number.
Proof. solve_decision. Defined.
#[global] Instance value_eq_dec : EqDecision value.
Proof. solve_decision. Defined.

End JS.

(** ** next.config.js *)

Module NextConfig.
Import JS.

(** [computeApiBaseUrl()], with the environment variable [API_URL] made an
    argument ([None] when it is not set). *)
Definition computeApiBaseUrl (API_URL : option string) : string :=
  match API_URL with
  | None => "http://localhost:8000"
  | Some apiUrl =>
      if negb (truthy (Some apiUrl)) || (String.length apiUrl =? 0)%nat then
        "http://localhost:8000"
      else if startsWith apiUrl "http://" || startsWith apiUrl "https://" then
        apiUrl
      else "https://" +:+ apiUrl
  end.

End NextConfig.

(** ** The settings drawer: data *)

Module Settings.
Import JS.

(** [SettingConfig.type] *)
Inductive SettingType : Type := integer | float | text | textarea.

(** [interface SettingConfig] *)
Record SettingConfig : Type := {
  cfg_type : SettingType;
  cfg_default : value;
  cfg_min : option number;
  cfg_max : option number;
  cfg_step : option number;
  cfg_maxLength : option number;
  cfg_description : option string;
}.

(** An element of [AgentConfig.supported_models]. *)
Record SupportedModels : Type := {
  provider : string;
  models : list string;
}.

(** [interface AgentConfig]; [ModelConfig] is a dictionary of
    [SettingConfig] like [agent_settings]. *)
Record AgentConfig : Type := {
  name : string;
  description : string;
  supported_models : list SupportedModels;
  model_settings : gmap string SettingConfig;
  agent_settings : gmap string SettingConfig;
}.

(** [interface AvailableAgents] *)
Abbreviation AvailableAgents := (gmap string AgentConfig).

(** [ModelSettings] and [AgentSettings]: the value mappings. *)
Abbreviation ValueMapping := (gmap string value).

(** An element of [ollamaModels]. *)
Record OllamaModel : Type := {
  tag : string;
  base_name : string;
}.

#[global] Instance SettingType_eq_dec : EqDecision SettingType.
Proof. solve_decision. Defined.
#[global] Instance SettingConfig_eq_dec : EqDecision SettingConfig.
Proof. solve_decision. Defined.
#[global] Instance SupportedModels_eq_dec : EqDecision SupportedModels.
Proof. solve_decision. Defined.
#[global] Instance AgentConfig_eq_dec : EqDecision AgentConfig.
Proof. solve_decision. Defined.
#[global] Instance OllamaModel_eq_dec : EqDecision OllamaModel.
Proof. solve_decision. Defined.

(** *** [SettingInput] *)

(** [sanitizeNumber], the closure of [SettingInput] over [config]. *)
Definition sanitizeNumber (config : SettingConfig) (value : number) : number :=
  let value :=
    match cfg_max config with
    | Some max => Math_min value max
    | None => value
    end in
  let value :=
    match cfg_min config with
    | Some min => Math_max value min
    | None => value
    end in
  value.

(** [x] satisfies the bounds that are present. *)
Definition within_bounds (config : SettingConfig) (x : number) : bool :=
  match cfg_min config with Some min => number_le min x | None => true end
  && match cfg_max config with Some max => number_le x max | None => true end.

(** The invariant of a numeric parameter spec: its default is a number that
    satisfies the bounds that are present. *)
Definition numeric_default_in_bounds (config : SettingConfig) : bool :=
  match cfg_default config with
  | VNum d => negb (isNaN d) && within_bounds config d
  | VStr _ => false
  end.

(** *** The defaults of a schema *)

(** [acc[key] = v] on a plain object, for a number or a string [v].  An own
    property is written, and a new key becomes an own property, except the
    key [__proto__] on an object that has no own property of that name: the
    assignment then reaches the setter [Object.prototype] has for it, which
    ignores a value that is neither an object nor [null], and nothing is
    stored. *)
Definition assign (acc : gmap string value) (key : string) (v : value)
    : gmap string value :=
  if String.eqb key "__proto__" && bool_decide (acc !! key = None) then acc
  else <[key := v]> acc.

(** [Object.entries(schema).reduce((acc, [key, config]) =>
      { acc[key] = config.default; return acc; }, {})],
    the expression bound to [defaultModelSettings] and
    [defaultAgentSettings].  [map_to_list] enumerates the entries in an
    order of its own; the keys of an object are distinct, so the result is
    the same for every order ([computeDefaults_any_order]). *)
Definition computeDefaults (schema : gmap string SettingConfig) : ValueMapping :=
  foldl (fun acc '(key, config) => assign acc key (cfg_default config))
        ∅ (map_to_list schema).

(** *** The React state of [SettingsContent]

    One field per [useState] cell the selection logic reads or writes
    ([apiKey], [loading] and [showAdvanced] only drive the rendering). *)
Record State : Type := {
  agents : option AvailableAgents;
  selectedAgent : option string;
  selectedProvider : option string;
  selectedModel : option string;
  modelSettings : option ValueMapping;
  agentSettings : option ValueMapping;
  ollamaModels : list OllamaModel;
  isLoadingOllamaModels : bool;
  ollamaError : option string;
}.

(** A queued state update: what a [setX(...)] call does to the state once
    React applies it. *)
Definition Update : Type := State -> State.

Definition setSelectedAgent (v : option string) : Update := fun s =>
  {| agents := agents s; selectedAgent := v;
     selectedProvider := selectedProvider s; selectedModel := selectedModel s;
     modelSettings := modelSettings s; agentSettings := agentSettings s;
     ollamaModels := ollamaModels s;
     isLoadingOllamaModels := isLoadingOllamaModels s;
     ollamaError := ollamaError s |}.

Definition setSelectedProvider (v : option string) : Update := fun s =>
  {| agents := agents s; selectedAgent := selectedAgent s;
     selectedProvider := v; selectedModel := selectedModel s;
     modelSettings := modelSettings s; agentSettings := agentSettings s;
     ollamaModels := ollamaModels s;
     isLoadingOllamaModels := isLoadingOllamaModels s;
     ollamaError := ollamaError s |}.

Definition setSelectedModel (v : option string) : Update := fun s =>
  {| agents := agents s; selectedAgent := selectedAgent s;
     selectedProvider := selectedProvider s; selectedModel := v;
     modelSettings := modelSettings s; agentSettings := agentSettings s;
     ollamaModels := ollamaModels s;
     isLoadingOllamaModels := isLoadingOllamaModels s;
     ollamaError := ollamaError s |}.

(** [setModelSettings] and [setAgentSettings] also take an updater function
    [(prev) => ...], so both are given in that form. *)
Definition setModelSettings
    (f : option ValueMapping -> option ValueMapping) : Update := fun s =>
  {| agents := agents s; selectedAgent := selectedAgent s;
     selectedProvider := selectedProvider s; selectedModel := selectedModel s;
     modelSettings := f (modelSettings s); agentSettings := agentSettings s;
     ollamaModels := ollamaModels s;
     isLoadingOllamaModels := isLoadingOllamaModels s;
     ollamaError := ollamaError s |}.

Definition setAgentSettings
    (f : option ValueMapping -> option ValueMapping) : Update := fun s =>
  {| agents := agents s; selectedAgent := selectedAgent s;
     selectedProvider := selectedProvider s; selectedModel := selectedModel s;
     modelSettings := modelSettings s; agentSettings := f (agentSettings s);
     ollamaModels := ollamaModels s;
     isLoadingOllamaModels := isLoadingOllamaModels s;
     ollamaError := ollamaError s |}.

Definition setOllamaModels (v : list OllamaModel) : Update := fun s =>
  {| agents := agents s; selectedAgent := selectedAgent s;
     selectedProvider := selectedProvider s; selectedModel := selectedModel s;
     modelSettings := modelSettings s; agentSettings := agentSettings s;
     ollamaModels := v;
     isLoadingOllamaModels := isLoadingOllamaModels s;
     ollamaError := ollamaError s |}.

Definition setIsLoadingOllamaModels (v : bool) : Update := fun s =>
  {| agents := agents s; selectedAgent := selectedAgent s;
     selectedProvider := selectedProvider s; selectedModel := selectedModel s;
     modelSettings := modelSettings s; agentSettings := agentSettings s;
     ollamaModels := ollamaModels s;
     isLoadingOllamaModels := v;
     ollamaError := ollamaError s |}.

Definition setOllamaError (v : option string) : Update := fun s =>
  {| agents := agents s; selectedAgent := selectedAgent s;
     selectedProvider := selectedProvider s; selectedModel := selectedModel s;
     modelSettings := modelSettings s; agentSettings := agentSettings s;
     ollamaModels := ollamaModels s;
     isLoadingOllamaModels := isLoadingOllamaModels s;
     ollamaError := v |}.

(** React applies the queued updates in the order of the calls. *)
Definition apply_updates (us : list Update) (s : State) : State :=
  foldl (fun acc u => u acc) s us.

(** *** The Ollama model fetch *)

(** A request to [/api/ollama/models] that has not settled yet.  The
    continuation of [fetchOllamaModels] after its [await] reads
    [selectedModel], [selectedAgent] and [agents] of the render that started
    it; these captured values are all the request needs to carry. *)
Record PendingFetch : Type := {
  captured_selectedModel : option string;
  captured_selectedAgent : option string;
  captured_agents : option AvailableAgents;
}.

Definition capture (s : State) : PendingFetch :=
  {| captured_selectedModel := selectedModel s;
     captured_selectedAgent := selectedAgent s;
     captured_agents := agents s |}.

(** What was thrown inside the [try] block. *)
Inductive Thrown : Type :=
| ErrorObject (message : string)   (* [error instanceof Error] *)
| NotAnError.

(** How a request settles: either the response is ok and its JSON body is an
    object whose [models], when present, is an array of [{tag, base_name}];
    or something is thrown before [setOllamaModels(data.models || [])] (the
    network fails, the status is not ok, the body is not JSON). *)
Inductive Response : Type :=
| ResponseOk (data_models : option (list OllamaModel))
| ResponseThrows (error : Thrown).

(** The effect body up to the [await]: runs during the effect phase. *)
Definition ollamaEffect (s : State) : list Update * list PendingFetch :=
  if bool_decide (selectedProvider s = Some "ollama") then
    ([setIsLoadingOllamaModels true; setOllamaError None], [capture s])
  else ([], []).

(** The [try] block after [await response.json()]. *)
Definition fetchResolved (f : PendingFetch)
    (data_models : option (list OllamaModel)) : list Update :=
  setOllamaModels (default [] data_models)
  :: match data_models with
     | Some (model0 :: rest) =>
         let modelTags := map tag (model0 :: rest) in
         if negb (includes modelTags (captured_selectedModel f)) then
           [setSelectedModel (Some (tag model0))]
         else []
     | _ => []
     end.

(** [(selectedAgent && agents?.[selectedAgent]?.supported_models.find(
       (m) => m.provider === 'ollama')?.models) || []] *)
Definition defaultModels (f : PendingFetch) : list string :=
  match captured_selectedAgent f, captured_agents f with
  | Some selectedAgent, Some agents =>
      if truthy (Some selectedAgent) then
        match agents !! selectedAgent with
        | Some agent =>
            match find (fun m => String.eqb (provider m) "ollama")
                       (supported_models agent) with
            | Some m => models m
            | None => []
            end
        | None => []
        end
      else []
  | _, _ => []
  end.

(** The [catch] block. *)
Definition fetchRejected (f : PendingFetch) (error : Thrown) : list Update :=
  [ setOllamaError
      (Some match error with
            | ErrorObject message => message
            | NotAnError => "Failed to fetch Ollama models"
            end);
    setOllamaModels
      (map (fun model => {| tag := model; base_name := model |})
           (defaultModels f)) ].

(** The continuation of [fetchOllamaModels] after the [await], with its
    [finally] block. *)
Definition fetchSettled (f : PendingFetch) (r : Response) : list Update :=
  match r with
  | ResponseOk data_models => fetchResolved f data_models
  | ResponseThrows error => fetchRejected f error
  end ++ [setIsLoadingOllamaModels false].

(** *** The selection effects *)

(** The effect on [[selectedAgent, agents]]; [None] when it throws a
    [TypeError] ([agents[selectedAgent]] is undefined, or [supported_models]
    is empty). *)
Definition agentEffect (s : State) : option (list Update) :=
  match agents s, selectedAgent s with
  | Some agents, Some selectedAgent =>
      if truthy (Some selectedAgent) then
        agent ← agents !! selectedAgent;
        entry0 ← head (supported_models agent);
        let defaultModelSettings := computeDefaults (model_settings agent) in
        let defaultAgentSettings := computeDefaults (agent_settings agent) in
        Some [ setSelectedProvider (Some (provider entry0));
               setSelectedModel (head (models entry0));
               setModelSettings (fun _ => Some defaultModelSettings);
               setAgentSettings (fun _ => Some defaultAgentSettings) ]
      else Some []
  | _, _ => Some []
  end.

(** The effect on [[selectedProvider, selectedAgent, agents]]. *)
Definition providerEffect (s : State) : option (list Update) :=
  match agents s, selectedAgent s, selectedProvider s with
  | Some agents, Some selectedAgent, Some selectedProvider =>
      if truthy (Some selectedAgent) && truthy (Some selectedProvider) then
        agent ← agents !! selectedAgent;
        let providerModels :=
          find (fun m => String.eqb (provider m) selectedProvider)
               (supported_models agent) in
        match providerModels with
        | Some providerModels =>
            match models providerModels with
            | model0 :: _ => Some [setSelectedModel (Some model0)]
            | [] => Some []
            end
        | None => Some []
        end
      else Some []
  | _, _, _ => Some []
  end.

(** The dependency arrays.  [agents] is only ever replaced by the mount
    effect, so comparing it by value agrees with comparing the reference. *)
Definition ollama_deps (s : State) :=
  (selectedProvider s, selectedAgent s, agents s, selectedModel s).
Definition agent_deps (s : State) := (selectedAgent s, agents s).
Definition provider_deps (s : State) :=
  (selectedProvider s, selectedAgent s, agents s).

(** The effect phase after the render of [cur] that followed the render of
    [prev]: the effects whose dependencies changed run in the order of their
    declaration, all on the values of [cur]. *)
Definition run_effects (prev cur : State)
    : option (list Update * list PendingFetch) :=
  let '(us1, started) :=
    if bool_decide (ollama_deps prev = ollama_deps cur) then ([], [])
    else ollamaEffect cur in
  us2 ← (if bool_decide (agent_deps prev = agent_deps cur) then Some []
          else agentEffect cur);
  us3 ← (if bool_decide (provider_deps prev = provider_deps cur) then Some []
          else providerEffect cur);
  Some (us1 ++ us2 ++ us3, started).

(** The component together with the requests in flight. *)
Record World : Type := {
  ui : State;
  inflight : list PendingFetch;
}.

Inductive outcome : Type :=
| Settled (w : World)
| Crashed          (* an effect threw *)
| OutOfFuel.

(** Render and run effects until no dependency array changes. *)
Fixpoint settle (fuel : nat) (prev cur : State) (net : list PendingFetch)
    : outcome :=
  match fuel with
  | O => OutOfFuel
  | S fuel' =>
      if bool_decide (ollama_deps prev = ollama_deps cur) then
        Settled {| ui := cur; inflight := net |}
      else
        match run_effects prev cur with
        | None => Crashed
        | Some (us, started) =>
            settle fuel' cur (apply_updates us cur) (net ++ started)
        end
  end.

(** *** Events *)

Inductive settingType : Type := model | agent.

(** [handleSettingChange(settingType, key, value)] *)
Definition handleSettingChange
    (ty : settingType) (key : string) (v : value) : Update :=
  match ty with
  | model => setModelSettings (fun prev => Some (<[key := v]> (default ∅ prev)))
  | agent => setAgentSettings (fun prev => Some (<[key := v]> (default ∅ prev)))
  end.

Inductive Event : Type :=
| SelectAgent (value : string)      (* the agent select's [onValueChange] *)
| SelectProvider (value : string)   (* the provider select's *)
| SelectModel (value : string)      (* the model select's *)
| SettingChange (ty : settingType) (key : string) (v : value)
| FetchSettles (i : nat) (r : Response).  (* request [i] in flight settles *)

(** The updates an event queues and the requests left in flight. *)
Definition event_updates (ev : Event) (w : World)
    : list Update * list PendingFetch :=
  match ev with
  | SelectAgent v => ([setSelectedAgent (Some v)], inflight w)
  | SelectProvider v => ([setSelectedProvider (Some v)], inflight w)
  | SelectModel v => ([setSelectedModel (Some v)], inflight w)
  | SettingChange ty key v => ([handleSettingChange ty key v], inflight w)
  | FetchSettles i r =>
      match inflight w !! i with
      | Some f => (fetchSettled f r, delete i (inflight w))
      | None => ([], inflight w)
      end
  end.

(** One event: its updates are applied in one batch, then the component
    renders and its effects run to quiescence. *)
Definition step (fuel : nat) (ev : Event) (w : World) : outcome :=
  let '(us, net) := event_updates ev w in
  settle fuel (ui w) (apply_updates us (ui w)) net.

Fixpoint run (fuel : nat) (evs : list Event) (w : World) : outcome :=
  match evs with
  | [] => Settled w
  | ev :: evs' =>
      match step fuel ev w with
      | Settled w' => run fuel evs' w'
      | o => o
      end
  end.

(** *** Comparing states *)

(** Two states that differ at most in the loading flag and the error. *)
Definition same_selection (s s' : State) : Prop :=
  agents s = agents s' /\ selectedAgent s = selectedAgent s'
  /\ selectedProvider s = selectedProvider s'
  /\ selectedModel s = selectedModel s'
  /\ modelSettings s = modelSettings s'
  /\ agentSettings s = agentSettings s'
  /\ ollamaModels s = ollamaModels s'.

(** Updates that leave a projection of the state alone. *)
Definition keeps {A} (f : State -> A) (u : Update) : Prop :=
  forall s, f (u s) = f s.

(** The mapping of one family of settings. *)
Definition settings_of (ty : settingType) (s : State) : option ValueMapping :=
  match ty with
  | model => modelSettings s
  | agent => agentSettings s
  end.

(** *** [handleSave] *)

(** The object handed to [updateSettings]. *)
Record SurfSettings : Type := {
  st_selectedAgent : string;
  st_selectedProvider : string;
  st_selectedModel : string;
  st_modelSettings : ValueMapping;
  st_agentSettings : ValueMapping;
  st_providerApiKeys : gmap string string;
}.

(** The calls [handleSave] makes on its collaborators, in order. *)
Inductive Call : Type :=
| updateSettings (settings : SurfSettings)
| clearInitialState
| resetSession
| closeSettings
| router_push (path : string).

(** [handleSave()], on the state of the current render and the
    [currentSettings] of the settings context. *)
Definition handleSave (s : State) (currentSettings : option SurfSettings)
    : list Call :=
  match selectedAgent s, selectedProvider s, selectedModel s,
        modelSettings s, agentSettings s with
  | Some selectedAgent, Some selectedProvider, Some selectedModel,
    Some modelSettings, Some agentSettings =>
      if negb (truthy (Some selectedAgent))
         || negb (truthy (Some selectedProvider))
         || negb (truthy (Some selectedModel)) then []
      else
        [ updateSettings
            {| st_selectedAgent := selectedAgent;
               st_selectedProvider := selectedProvider;
               st_selectedModel := selectedModel;
               st_modelSettings := modelSettings;
               st_agentSettings := agentSettings;
               st_providerApiKeys :=
                 default ∅ (st_providerApiKeys <$> currentSettings) |};
          clearInitialState;
          resetSession;
          closeSettings;
          router_push "/" ]
  | _, _, _, _, _ => []
  end.

End Settings.

(** ** A catalog with two agents

    The drawer once the catalog has loaded: the agent effect has put the
    selection on the first provider and model of the persisted agent
    ([writer]) and both mappings on its defaults. *)

Module Scenario.
Import JS Settings.

Definition temperature : SettingConfig :=
  {| cfg_type := float; cfg_default := VNum (Finite (7 # 10));
     cfg_min := Some (Finite 0); cfg_max := Some (Finite 1);
     cfg_step := Some (Finite (1 # 10)); cfg_maxLength := None;
     cfg_description := None |}.

Definition style : SettingConfig :=
  {| cfg_type := text; cfg_default := VStr "terse";
     cfg_min := None; cfg_max := None; cfg_step := None;
     cfg_maxLength := None; cfg_description := None |}.

Definition writer : AgentConfig :=
  {| name := "Writer"; description := "Drafts text";
     supported_models :=
       [ {| provider := "openai"; models := ["gpt-4"] |};
         {| provider := "ollama"; models := ["llama2"] |} ];
     model_settings := {[ "temperature" := temperature ]};
     agent_settings := ∅ |}.

Definition critic : AgentConfig :=
  {| name := "Critic"; description := "Reviews text";
     supported_models :=
       [ {| provider := "ollama"; models := ["phi3"] |};
         {| provider := "anthropic"; models := ["claude-3"] |} ];
     model_settings := ∅;
     agent_settings := {[ "style" := style ]} |}.

Definition catalog : AvailableAgents :=
  {[ "writer" := writer; "critic" := critic ]}.

(** The first render: the selection comes from the persisted settings,
    the catalog has not arrived. *)
Definition mounted : State :=
  {| agents := None;
     selectedAgent := Some "writer";
     selectedProvider := Some "openai";
     selectedModel := Some "gpt-4";
     modelSettings := Some {[ "temperature" := VNum (Finite (3 # 10)) ]};
     agentSettings := Some ∅;
     ollamaModels := [];
     isLoadingOllamaModels := false;
     ollamaError := None |}.

(** [setAgents(data)] of the mount effect. *)
Definition catalog_arrived : State :=
  {| agents := Some catalog;
     selectedAgent := selectedAgent mounted;
     selectedProvider := selectedProvider mounted;
     selectedModel := selectedModel mounted;
     modelSettings := modelSettings mounted;
     agentSettings := agentSettings mounted;
     ollamaModels := ollamaModels mounted;
     isLoadingOllamaModels := isLoadingOllamaModels mounted;
     ollamaError := ollamaError mounted |}.

Definition loaded : World :=
  {| ui :=
       {| agents := Some catalog;
          selectedAgent := Some "writer";
          selectedProvider := Some "openai";
          selectedModel := Some "gpt-4";
          modelSettings := Some (computeDefaults (model_settings writer));
          agentSettings := Some (computeDefaults (agent_settings writer));
          ollamaModels := [];
          isLoadingOllamaModels := false;
          ollamaError := None |};
     inflight := [] |}.

(** The requests the drawer starts under [writer]: the first captures the
    model of the hosted provider, the second the model the provider effect
    selected. *)
Definition request (selectedModel selectedAgent : string) : PendingFetch :=
  {| captured_selectedModel := Some selectedModel;
     captured_selectedAgent := Some selectedAgent;
     captured_agents := Some catalog |}.

(** [loaded] after the provider select is put on "ollama". *)
Definition on_ollama : World :=
  {| ui :=
       {| agents := Some catalog;
          selectedAgent := Some "writer";
          selectedProvider := Some "ollama";
          selectedModel := Some "llama2";
          modelSettings := Some (computeDefaults (model_settings writer));
          agentSettings := Some (computeDefaults (agent_settings writer));
          ollamaModels := [];
          isLoadingOllamaModels := true;
          ollamaError := None |};
     inflight := [request "gpt-4" "writer"; request "llama2" "writer"] |}.

(** [on_ollama] after the provider select is put back on "openai". *)
Definition back_on_openai : World :=
  {| ui :=
       {| agents := Some catalog;
          selectedAgent := Some "writer";
          selectedProvider := Some "openai";
          selectedModel := Some "gpt-4";
          modelSettings := Some (computeDefaults (model_settings writer));
          agentSettings := Some (computeDefaults (agent_settings writer));
          ollamaModels := [];
          isLoadingOllamaModels := true;
          ollamaError := None |};
     inflight := [request "gpt-4" "writer"; request "llama2" "writer"] |}.

(** [on_ollama] after the agent select is put on "critic". *)
Definition critic_on_ollama : World :=
  {| ui :=
       {| agents := Some catalog;
          selectedAgent := Some "critic";
          selectedProvider := Some "ollama";
          selectedModel := Some "phi3";
          modelSettings := Some (computeDefaults (model_settings critic));
          agentSettings := Some (computeDefaults (agent_settings critic));
          ollamaModels := [];
          isLoadingOllamaModels := true;
          ollamaError := None |};
     inflight := [request "gpt-4" "writer"; request "llama2" "writer";
                  request "llama2" "critic"; request "phi3" "critic"] |}.

(** What the local Ollama runtime has installed. *)
Definition mistral : OllamaModel := {| tag := "mistral"; base_name := "mistral" |}.
Definition llama2 : OllamaModel := {| tag := "llama2"; base_name := "llama2" |}.

End Scenario.

(** ** The drawer: when its effects can throw *)

Module Safety.
Import JS Settings.

(** The selected agent, when the catalog is loaded and the agent is set, is
    an agent of the catalog with at least one supported-model entry: what
    [agents[selectedAgent].supported_models[0]] needs. *)
Definition selection_ok (s : State) : Prop :=
  forall ags a,
    agents s = Some ags -> selectedAgent s = Some a -> a <> "" ->
    exists cfg, ags !! a = Some cfg /\ supported_models cfg <> [].

(** The two parameter mappings of a state, and the defaults of the two
    schemas of an agent. *)
Definition mappings (s : State) := (modelSettings s, agentSettings s).

Definition defaults_of (cfg : AgentConfig) :=
  (Some (computeDefaults (model_settings cfg)),
   Some (computeDefaults (agent_settings cfg))).

End Safety.

(** ** [SettingInput]: the label and the handlers of the controls *)

Module Inputs.
Import JS Settings.

(** The separator of the words of a key. *)
Definition underscore : Ascii.ascii := Ascii.ascii_of_nat 95.

(** [s.split(sep)] for a separator of one character. *)
Fixpoint split (sep : Ascii.ascii) (s : string) : list string :=
  match s with
  | EmptyString => [EmptyString]
  | String c rest =>
      if Ascii.eqb c sep then EmptyString :: split sep rest
      else match split sep rest with
           | word :: words => String c word :: words
           | [] => [String c EmptyString]
           end
  end.

(** [words.join(sep)] *)
Fixpoint join (sep : string) (words : list string) : string :=
  match words with
  | [] => EmptyString
  | [word] => word
  | word :: words => word +:+ sep +:+ join sep words
  end.

(** [toUpperCase()] on the characters of ASCII; the keys of a schema are
    taken to be ASCII. *)
Definition toUpperCase_char (c : Ascii.ascii) : Ascii.ascii :=
  let n := Ascii.nat_of_ascii c in
  if (97 <=? n)%nat && (n <=? 122)%nat then Ascii.ascii_of_nat (n - 32) else c.

Fixpoint toUpperCase (s : string) : string :=
  match s with
  | EmptyString => EmptyString
  | String c rest => String (toUpperCase_char c) (toUpperCase rest)
  end.

Fixpoint is_ascii (s : string) : bool :=
  match s with
  | EmptyString => true
  | String c rest => (Ascii.nat_of_ascii c <? 128)%nat && is_ascii rest
  end.

(** [word.charAt(0)] and [word.slice(1)] *)
Definition charAt0 (word : string) : string :=
  match word with
  | EmptyString => EmptyString
  | String c _ => String c EmptyString
  end.

Definition slice1 (word : string) : string :=
  match word with
  | EmptyString => EmptyString
  | String _ rest => rest
  end.

(** [settingKey.split('_').map((word) =>
       word.charAt(0).toUpperCase() + word.slice(1)).join(' ')] *)
Definition label (settingKey : string) : string :=
  join " "
    (map (fun word => toUpperCase (charAt0 word) +:+ slice1 word)
         (split underscore settingKey)).

(** The label in one pass: [start] tells whether the next character starts
    a word. *)
Fixpoint relabel (start : bool) (s : string) : string :=
  match s with
  | EmptyString => EmptyString
  | String c rest =>
      if Ascii.eqb c underscore then String (Ascii.ascii_of_nat 32) (relabel true rest)
      else String (if start then toUpperCase_char c else c) (relabel false rest)
  end.

(** The character at [i] starts a word: it is the first one, or it follows
    an underscore. *)
Definition starts_word (i : nat) (settingKey : string) : bool :=
  match i with
  | O => true
  | S j =>
      match String.get j settingKey with
      | Some c => Ascii.eqb c underscore
      | None => false
      end
  end.

(** What a control of [SettingInput] reports: the slider its new value, the
    number input the result of [parseInt(e.target.value)] (NaN when the text
    has no leading integer), a text input or a text area its text. *)
Inductive ControlEvent : Type :=
| SliderValueChange (newValue : number)
| NumberInputChange (newValue : number)
| NumberInputBlur (newValue : number)
| TextChange (text : string).

(** The value [SettingInput] passes to its [onChange] prop, if it calls it.
    Only the control of the type of the config is rendered. *)
Definition emitted (config : SettingConfig) (ev : ControlEvent) : option value :=
  match cfg_type config, ev with
  | float, SliderValueChange newValue =>
      Some (VNum (sanitizeNumber config newValue))
  | integer, NumberInputChange newValue =>
      if negb (isNaN newValue) then Some (VNum (sanitizeNumber config newValue))
      else None
  | integer, NumberInputBlur newValue =>
      if negb (isNaN newValue) then Some (VNum (sanitizeNumber config newValue))
      else Some (cfg_default config)
  | text, TextChange s | textarea, TextChange s => Some (VStr s)
  | _, _ => None
  end.

Definition schema_of (ty : settingType) (cfg : AgentConfig)
    : gmap string SettingConfig :=
  match ty with
  | model => model_settings cfg
  | agent => agent_settings cfg
  end.

(** The inputs of the advanced section: one [SettingInput] per entry of the
    two schemas of the selected agent, its [onChange] bound to
    [handleSettingChange] with that key.  [None] when there is no such
    input or the control does not call [onChange]. *)
Definition controlEvent (ty : settingType) (key : string) (ev : ControlEvent)
    (s : State) : option Event :=
  agents ← agents s;
  selectedAgent ← selectedAgent s;
  cfg ← agents !! selectedAgent;
  config ← schema_of ty cfg !! key;
  v ← emitted config ev;
  Some (SettingChange ty key v).

(** A numeric parameter. *)
Definition is_numeric (config : SettingConfig) : bool :=
  match cfg_type config with
  | integer | float => true
  | text | textarea => false
  end.

(** Every numeric parameter of the schema that the mapping has a value for
    holds a number, not NaN, within the bounds its spec has. *)
Definition in_bounds_for (schema : gmap string SettingConfig)
    (m : option ValueMapping) : Prop :=
  forall mm key config v,
    m = Some mm -> schema !! key = Some config -> is_numeric config = true ->
    mm !! key = Some v ->
    exists n, v = VNum n /\ isNaN n = false /\ within_bounds config n = true.

Definition settings_in_bounds (s : State) : Prop :=
  forall ags a cfg,
    agents s = Some ags -> selectedAgent s = Some a -> ags !! a = Some cfg ->
    in_bounds_for (model_settings cfg) (modelSettings s)
    /\ in_bounds_for (agent_settings cfg) (agentSettings s).

(** The numeric specs of the catalog have their default within their
    bounds. *)
Definition catalog_valid (ags : AvailableAgents) : Prop :=
  forall a cfg ty key config,
    ags !! a = Some cfg -> schema_of ty cfg !! key = Some config ->
    is_numeric config = true -> numeric_default_in_bounds config = true.

(** The events the user and the network can cause: a control of the
    advanced section reports something (the slider never NaN), the agent
    select is put on one of its items (a key of the catalog, and here an
    agent with supported models), or any other event. *)
Definition user_event (s : State) (ev : Event) : Prop :=
  match ev with
  | SettingChange ty key v =>
      exists cev,
        (forall newValue, cev = SliderValueChange newValue ->
                          isNaN newValue = false)
        /\ controlEvent ty key cev s = Some (SettingChange ty key v)
  | SelectAgent v =>
      v <> ""
      /\ forall ags, agents s = Some ags ->
           exists cfg, ags !! v = Some cfg /\ supported_models cfg <> []
  | _ => True
  end.

End Inputs.

(** ** next.config.js: the rewrites *)

Module Rewrites.
Import JS NextConfig.

Record Rewrite : Type := {
  source : string;
  destination : string;
}.

(** [nextConfig.rewrites()] *)
Definition rewrites (API_URL : option string) : list Rewrite :=
  let API_BASE := computeApiBaseUrl API_URL in
  [ {| source := "/api/:path*"; destination := API_BASE +:+ "/api/:path*" |};
    {| source := "/docs"; destination := API_BASE +:+ "/docs" |};
    {| source := "/openapi.json"; destination := API_BASE +:+ "/openapi.json" |} ].

End Rewrites.

(** ** The drawer: the provider API keys *)

Module ApiKeys.
Import JS Settings.

(** [{...currentSettings, providerApiKeys: keys}] *)
Definition with_providerApiKeys (currentSettings : SurfSettings)
    (keys : gmap string string) : SurfSettings :=
  {| st_selectedAgent := st_selectedAgent currentSettings;
     st_selectedProvider := st_selectedProvider currentSettings;
     st_selectedModel := st_selectedModel currentSettings;
     st_modelSettings := st_modelSettings currentSettings;
     st_agentSettings := st_agentSettings currentSettings;
     st_providerApiKeys := keys |}.

(** What the Save button hands to [updateSettings]: the spread of an
    undefined [currentSettings] contributes nothing, and the object then
    has the keys only. *)
Inductive Written : Type :=
| FullSettings (settings : SurfSettings)
| KeysOnly (providerApiKeys : gmap string string).

(** What reading a property of the keys object gives: the string of an own
    property, the member inherited from [Object.prototype] when there is no
    own property but the name is one of the prototype's, or [undefined]. *)
Inductive Member : Type :=
| Own (key : string)
| Inherited
| Undefined.

(** [currentSettings?.providerApiKeys?.[selectedProvider]]; the keys object
    is a plain object (an object literal here, parsed JSON in the store). *)
Definition storedKey (currentSettings : option SurfSettings)
    (selectedProvider : string) : Member :=
  match currentSettings with
  | None => Undefined
  | Some settings =>
      match st_providerApiKeys settings !! selectedProvider with
      | Some key => Own key
      | None => if inherited selectedProvider then Inherited else Undefined
      end
  end.

(** Truthiness of a member: an inherited member is a function or an
    object. *)
Definition member_truthy (m : Member) : bool :=
  match m with
  | Own key => truthy (Some key)
  | Inherited => true
  | Undefined => false
  end.

(** The click handler of "Clear Key"; the button is only rendered with
    [currentSettings] defined. *)
Definition clearKeyClicked (currentSettings : SurfSettings)
    (selectedProvider : string) : SurfSettings :=
  let newKeys := st_providerApiKeys currentSettings in
  let newKeys := delete selectedProvider newKeys in
  with_providerApiKeys currentSettings newKeys.

(** The click handler of "Save": the argument of [updateSettings] and the
    new content of the key input ([setApiKey('')]). *)
Definition saveKeyClicked (currentSettings : option SurfSettings)
    (selectedProvider apiKey : string) : Written * string :=
  let currentKeys := default ∅ (st_providerApiKeys <$> currentSettings) in
  let keys := <[selectedProvider := apiKey]> currentKeys in
  (match currentSettings with
   | Some settings => FullSettings (with_providerApiKeys settings keys)
   | None => KeysOnly keys
   end, "").

Inductive Placeholder : Type :=
| Masked                          (* sixteen bullets *)
| EnterKey (provider : string).   (* [`Enter ${selectedProvider} API Key`] *)

Record ApiKeyView : Type := {
  clear_offered : bool;
  placeholder : Placeholder;
  save_offered : bool;
}.

(** The "API Key Management" block of the content of the drawer (catalog
    loaded, an agent selected); [None] when the block is not rendered. *)
Definition apiKeySection (selectedProvider : option string)
    (currentSettings : option SurfSettings) (apiKey : string)
    : option ApiKeyView :=
  match selectedProvider with
  | Some provider =>
      if truthy (Some provider) && negb (String.eqb provider "ollama") then
        let stored := member_truthy (storedKey currentSettings provider) in
        Some {| clear_offered := stored;
                placeholder := if stored then Masked else EnterKey provider;
                save_offered := truthy (Some apiKey) |}
      else None
  | None => None
  end.

End ApiKeys.

(** ** The drawer: the items of the model select *)

Module Render.
Import JS Settings.

Record SelectItem : Type := {
  item_value : string;
  item_label : string;
  item_disabled : bool;
}.

(** [agents[selectedAgent].supported_models.find((m) => m.provider === selectedProvider)
      ?.models], nothing when there is no such entry. *)
Definition staticModels (cfg : AgentConfig)
    (selectedProvider : option string) : list string :=
  match selectedProvider with
  | Some p =>
      match find (fun m => String.eqb (provider m) p) (supported_models cfg) with
      | Some m => models m
      | None => []
      end
  | None => []
  end.

(** The children of the [SelectContent] of the model select; [None] when
    the select is not rendered (no agent selected, catalog not loaded, or
    [agents[selectedAgent]] undefined).  The [loading] cell is false
    whenever the catalog is loaded: [setLoading(false)] is queued in the
    batch of [setAgents]. *)
Definition modelItems (s : State) : option (list SelectItem) :=
  match agents s, selectedAgent s with
  | Some agents, Some selectedAgent =>
      if truthy (Some selectedAgent) then
        cfg ← agents !! selectedAgent;
        Some
          (if bool_decide (selectedProvider s = Some "ollama") then
             if isLoadingOllamaModels s then
               [ {| item_value := "loading";
                    item_label := "Loading Ollama models...";
                    item_disabled := true |} ]
             else if truthy (ollamaError s) then
               {| item_value := "error";
                  item_label := "Error loading models";
                  item_disabled := true |}
               :: map (fun m =>
                         {| item_value := m;
                            item_label := m +:+ " (fallback)";
                            item_disabled := false |})
                      (staticModels cfg (selectedProvider s))
             else if (0 <? length (ollamaModels s))%nat then
               map (fun m =>
                      {| item_value := tag m;
                         item_label := tag m;
                         item_disabled := false |})
                   (ollamaModels s)
             else
               [ {| item_value := "no-models";
                    item_label :=
                      "No models found. Install models with 'ollama pull'";
                    item_disabled := true |} ]
           else
             map (fun m =>
                    {| item_value := m;
                       item_label := m;
                       item_disabled := false |})
                 (staticModels cfg (selectedProvider s)))
      else None
  | _, _ => None
  end.

(** The values the user can pick. *)
Definition selectable (items : list SelectItem) : list string :=
  map item_value (filter (fun item => item_disabled item = false) items).

End Render.

(** ** The drawer: the mount effect *)

Module Mount.
Import JS Settings.

Definition setAgents (v : option AvailableAgents) : Update := fun s =>
  {| agents := v; selectedAgent := selectedAgent s;
     selectedProvider := selectedProvider s; selectedModel := selectedModel s;
     modelSettings := modelSettings s; agentSettings := agentSettings s;
     ollamaModels := ollamaModels s;
     isLoadingOllamaModels := isLoadingOllamaModels s;
     ollamaError := ollamaError s |}.

(** The initial values of the [useState] cells. *)
Definition initialState (currentSettings : option SurfSettings) : State :=
  {| agents := None;
     selectedAgent := st_selectedAgent <$> currentSettings;
     selectedProvider := st_selectedProvider <$> currentSettings;
     selectedModel := st_selectedModel <$> currentSettings;
     modelSettings := st_modelSettings <$> currentSettings;
     agentSettings := st_agentSettings <$> currentSettings;
     ollamaModels := [];
     isLoadingOllamaModels := false;
     ollamaError := None |}.

(** The drawer after its first render: every effect has run once.  Without
    a catalog the agent and the provider effect do nothing; the Ollama
    effect starts a request when the persisted provider is "ollama". *)
Definition mounted (currentSettings : option SurfSettings) : World :=
  let s := initialState currentSettings in
  {| ui := apply_updates (ollamaEffect s).1 s;
     inflight := (ollamaEffect s).2 |}.

(** The object the mount effect hands to [updateSettings] on first use;
    [selectedModel] is undefined when the first entry lists no model. *)
Record FirstSettings : Type := {
  first_selectedAgent : string;
  first_selectedProvider : string;
  first_selectedModel : option string;
  first_modelSettings : ValueMapping;
  first_agentSettings : ValueMapping;
  first_providerApiKeys : gmap string string;
}.

(** The continuation of [fetchAgents] after its [await]s: the updates it
    queues and its call of [updateSettings], if any.  [data] is the parsed
    body as [Object.entries] lists it, [None] when the request failed or the
    status is not ok; whatever is thrown is caught and logged, after the
    updates queued so far. *)
Definition fetchAgentsSettled (currentSettings : option SurfSettings)
    (data : option (list (string * AgentConfig)))
    : list Update * option FirstSettings :=
  match data with
  | None => ([], None)
  | Some entries =>
      let data : AvailableAgents := list_to_map entries in
      match currentSettings with
      | Some _ => ([setAgents (Some data)], None)
      | None =>
          match head entries.*1 with
          | None => ([setAgents (Some data)], None)
          | Some firstAgentKey =>
              match data !! firstAgentKey with
              | None => ([setAgents (Some data)], None)
              | Some cfg =>
                  match head (supported_models cfg) with
                  | None => ([setAgents (Some data)], None)
                  | Some entry0 =>
                      let defaultProvider := provider entry0 in
                      let defaultModel := head (models entry0) in
                      let defaultModelSettings :=
                        computeDefaults (model_settings cfg) in
                      let defaultAgentSettings :=
                        computeDefaults (agent_settings cfg) in
                      ([ setAgents (Some data);
                         setSelectedAgent (Some firstAgentKey);
                         setSelectedProvider (Some defaultProvider);
                         setSelectedModel defaultModel;
                         setModelSettings (fun _ => Some defaultModelSettings);
                         setAgentSettings (fun _ => Some defaultAgentSettings) ],
                       Some {| first_selectedAgent := firstAgentKey;
                               first_selectedProvider := defaultProvider;
                               first_selectedModel := defaultModel;
                               first_modelSettings := defaultModelSettings;
                               first_agentSettings := defaultAgentSettings;
                               first_providerApiKeys := ∅ |})
                  end
              end
          end
      end
  end.

(** The catalog request settles: its updates are applied in one batch and
    the effects run to quiescence. *)
Definition catalogSettles (fuel : nat) (currentSettings : option SurfSettings)
    (data : option (list (string * AgentConfig))) (w : World)
    : outcome * option FirstSettings :=
  let '(us, written) := fetchAgentsSettled currentSettings data in
  (settle fuel (ui w) (apply_updates us (ui w)) (inflight w), written).

End Mount.

(** ** More of the scenario *)

Module Persisted.
Import JS Settings Scenario.

(** Settings persisted by an earlier session: [writer] on the local
    runtime, with a temperature of its own. *)
Definition earlier : SurfSettings :=
  {| st_selectedAgent := "writer";
     st_selectedProvider := "ollama";
     st_selectedModel := "mistral";
     st_modelSettings := {[ "temperature" := VNum (Finite (3 # 10)) ]};
     st_agentSettings := ∅;
     st_providerApiKeys := {[ "openai" := "sk-1" ]} |}.

(** Settings persisted for an agent the catalog no longer has. *)
Definition stale : SurfSettings :=
  {| st_selectedAgent := "editor";
     st_selectedProvider := "openai";
     st_selectedModel := "gpt-4";
     st_modelSettings := ∅;
     st_agentSettings := ∅;
     st_providerApiKeys := ∅ |}.

(** The body of [/api/agents], as [Object.entries] lists it. *)
Definition entries : list (string * AgentConfig) :=
  [("writer", writer); ("critic", critic)].

End Persisted.

(** * Properties *)

Import JS Settings NextConfig.

(** ** Numbers, strings *)

Section JSFacts.

Lemma number_lt_irrefl a : number_lt a a = false.
Proof.
  destruct a as [| |q|]; simpl; try reflexivity.
  assert (H : (q ?= q)%Q = Eq) by (apply Qeq_alt; reflexivity).
  now rewrite H.
Qed.

Lemma number_lt_Finite p q : number_lt (Finite p) (Finite q) = true <-> (p < q)%Q.
Proof.
  simpl. rewrite Qlt_alt. destruct (p ?= q)%Q; split; congruence.
Qed.

Lemma number_le_spec a b :
  number_le a b = true <-> isNaN a = false /\ isNaN b = false /\ number_lt b a = false.
Proof.
  unfold number_le.
  destruct (isNaN a), (isNaN b), (number_lt b a); simpl; intuition congruence.
Qed.

Lemma number_lt_trans_neg a b c :
  isNaN a = false -> isNaN b = false -> isNaN c = false ->
  number_lt b a = false -> number_lt c b = false -> number_lt c a = false.
Proof.
  intros Ha Hb Hc Hab Hbc.
  destruct (number_lt c a) eqn:Hca; [|reflexivity].
  destruct a as [| |p|], b as [| |q|], c as [| |r|]; simpl in *; try discriminate.
  change (number_lt (Finite r) (Finite p) = true) in Hca.
  change (number_lt (Finite q) (Finite p) = false) in Hab.
  change (number_lt (Finite r) (Finite q) = false) in Hbc.
  apply number_lt_Finite in Hca.
  assert (~ (q < p)%Q) by (rewrite <- number_lt_Finite; congruence).
  assert (~ (r < q)%Q) by (rewrite <- number_lt_Finite; congruence).
  exfalso. apply Qnot_lt_le in H. apply Qnot_lt_le in H0.
  apply (Qlt_irrefl r). eapply Qlt_le_trans; [exact Hca|]. eapply Qle_trans; eassumption.
Qed.

Lemma number_le_trans a b c :
  number_le a b = true -> number_le b c = true -> number_le a c = true.
Proof.
  rewrite !number_le_spec. intros (Ha & Hb & Hab) (_ & Hc & Hbc).
  repeat split; try assumption.
  now apply (number_lt_trans_neg a b c).
Qed.

End JSFacts.

(** ** [sanitizeNumber] *)

Section SanitizeFacts.

Ltac js_case :=
  match goal with
  | |- context [isNaN ?a] => is_var a; destruct (isNaN a) eqn:?
  | |- context [number_lt ?a ?b] =>
      is_var a; is_var b; destruct (number_lt a b) eqn:?
  end.

Lemma isNaN_Math_min a b : isNaN (Math_min a b) = isNaN a || isNaN b.
Proof.
  unfold Math_min. destruct (isNaN a) eqn:Ha, (isNaN b) eqn:Hb; simpl; try reflexivity.
  destruct (number_lt b a); congruence.
Qed.

Lemma isNaN_Math_max a b : isNaN (Math_max a b) = isNaN a || isNaN b.
Proof.
  unfold Math_max. destruct (isNaN a) eqn:Ha, (isNaN b) eqn:Hb; simpl; try reflexivity.
  destruct (number_lt a b); congruence.
Qed.

(** Clamping twice against the same bound changes nothing more. *)
Lemma Math_min_absorb a b : Math_min (Math_min a b) b = Math_min a b.
Proof.
  unfold Math_min at 1. rewrite isNaN_Math_min. unfold Math_min.
  destruct (isNaN a) eqn:Ha, (isNaN b) eqn:Hb; simpl; try reflexivity.
  destruct (number_lt b a) eqn:Hlt; [now rewrite number_lt_irrefl | now rewrite Hlt].
Qed.

Lemma Math_max_absorb a b : Math_max (Math_max a b) b = Math_max a b.
Proof.
  unfold Math_max at 1. rewrite isNaN_Math_max. unfold Math_max.
  destruct (isNaN a) eqn:Ha, (isNaN b) eqn:Hb; simpl; try reflexivity.
  destruct (number_lt a b) eqn:Hlt; [now rewrite number_lt_irrefl | now rewrite Hlt].
Qed.

(** The upper clamp of an already clamped value: the lower bound may have
    pushed the value above [hi], and then the second pass settles on [lo]
    again. *)
Lemma Math_clamp_absorb v lo hi :
  Math_max (Math_min (Math_max (Math_min v hi) lo) hi) lo
  = Math_max (Math_min v hi) lo.
Proof.
  unfold Math_max, Math_min.
  repeat (js_case;
          repeat (progress (simpl; rewrite ?number_lt_irrefl;
                            repeat match goal with
                                   | H : _ = _ |- _ => rewrite H
                                   end));
          try reflexivity; try congruence).
Qed.

Lemma sanitizeNumber_idempotent config v :
  sanitizeNumber config (sanitizeNumber config v) = sanitizeNumber config v.
Proof.
  unfold sanitizeNumber.
  destruct (cfg_max config) as [hi|], (cfg_min config) as [lo|].
  - apply Math_clamp_absorb.
  - apply Math_min_absorb.
  - apply Math_max_absorb.
  - reflexivity.
Qed.

Lemma numeric_default_bounds_ordered config lo hi :
  numeric_default_in_bounds config = true ->
  cfg_min config = Some lo -> cfg_max config = Some hi ->
  number_le lo hi = true.
Proof.
  unfold numeric_default_in_bounds, within_bounds. intros H Hlo Hhi.
  rewrite Hlo, Hhi in H. destruct (cfg_default config) as [d|]; [|discriminate].
  apply andb_true_iff in H as [_ H]. apply andb_true_iff in H as [H1 H2].
  eapply number_le_trans; eassumption.
Qed.

Lemma Math_clamp_within v lo hi :
  isNaN v = false -> number_le lo hi = true ->
  number_le lo (Math_max (Math_min v hi) lo) = true
  /\ number_le (Math_max (Math_min v hi) lo) hi = true.
Proof.
  intros Hv Hle. apply number_le_spec in Hle as (Hlo & Hhi & Hlt).
  rewrite !number_le_spec, isNaN_Math_max, isNaN_Math_min, Hv, Hlo, Hhi. simpl.
  unfold Math_max, Math_min. rewrite Hv, Hhi. simpl.
  destruct (number_lt hi v) eqn:Hhv; rewrite ?Hhi, ?Hv, Hlo; simpl.
  - rewrite Hlt. rewrite number_lt_irrefl. auto.
  - destruct (number_lt v lo) eqn:Hvl; rewrite ?number_lt_irrefl, ?Hhv; auto.
Qed.

End SanitizeFacts.

(** C6. [sanitizeNumber] is idempotent, for every config and every number;
    when both [min] and [max] are defined, with [min <= max], the result of
    clamping a number (a value that is not NaN) lies in [[min, max]]; and
    when the spec has no bounds the value passes through unchanged.

    [min <= max] holds in every numeric parameter spec, whose default lies
    within the bounds present ([numeric_default_bounds_ordered]); NaN never
    reaches [sanitizeNumber]: the integer input tests [!isNaN(newValue)]
    before both calls and the slider reports values of its range. *)
Theorem sanitizeNumber_clamp (config : SettingConfig) (v : number) :
  sanitizeNumber config (sanitizeNumber config v) = sanitizeNumber config v
  /\ (forall min max,
        cfg_min config = Some min -> cfg_max config = Some max ->
        number_le min max = true -> isNaN v = false ->
        number_le min (sanitizeNumber config v) = true
        /\ number_le (sanitizeNumber config v) max = true)
  /\ (cfg_min config = None -> cfg_max config = None ->
      sanitizeNumber config v = v).
Proof.
  split; [apply sanitizeNumber_idempotent|]. split.
  - intros lo hi Hlo Hhi Hle Hv.
    unfold sanitizeNumber. rewrite Hlo, Hhi. now apply Math_clamp_within.
  - intros Hlo Hhi. unfold sanitizeNumber. now rewrite Hlo, Hhi.
Qed.

(** ** [computeApiBaseUrl] and the schema defaults *)

Section StringFacts.

Lemma append_String c p rest : String c p +:+ rest = String c (p +:+ rest).
Proof. reflexivity. Qed.

Lemma startsWith_iff s p : startsWith s p = true <-> exists rest, s = p +:+ rest.
Proof.
  unfold startsWith. revert s.
  induction p as [|c p IH]; intros s; simpl.
  - split; [intros _; now exists s | intros _; now destruct s].
  - destruct s as [|d s]; simpl.
    + split; [discriminate | intros [rest H]; discriminate].
    + destruct (Ascii.ascii_dec c d) as [->|Hne].
      * rewrite IH. split; intros [rest H]; exists rest;
          rewrite append_String in *; congruence.
      * split; [discriminate | intros [rest H]; rewrite append_String in H; congruence].
Qed.

Lemma truthy_Some s : truthy (Some s) = true <-> s <> "".
Proof. simpl. destruct (String.eqb_spec s ""); simpl; split; congruence. Qed.

Lemma truthy_Some_false s : truthy (Some s) = false <-> s = "".
Proof. simpl. destruct (String.eqb_spec s ""); simpl; split; congruence. Qed.

End StringFacts.

(** C10. [computeApiBaseUrl] returns "http://localhost:8000" when [API_URL]
    is unset or empty, [API_URL] itself when it starts with "http://" or
    "https://", and otherwise [API_URL] prefixed with "https://". *)
Theorem computeApiBaseUrl_cases (API_URL : option string) :
  (API_URL = None \/ API_URL = Some "" ->
   computeApiBaseUrl API_URL = "http://localhost:8000")
  /\ (forall apiUrl, API_URL = Some apiUrl -> apiUrl <> "" ->
      ((exists rest, apiUrl = "http://" +:+ rest)
       \/ (exists rest, apiUrl = "https://" +:+ rest)) ->
      computeApiBaseUrl API_URL = apiUrl)
  /\ (forall apiUrl, API_URL = Some apiUrl -> apiUrl <> "" ->
      ~ (exists rest, apiUrl = "http://" +:+ rest) ->
      ~ (exists rest, apiUrl = "https://" +:+ rest) ->
      computeApiBaseUrl API_URL = "https://" +:+ apiUrl).
Proof.
  repeat split.
  - intros [-> | ->]; reflexivity.
  - intros u -> Hne Hpre. unfold computeApiBaseUrl.
    assert (Hlen : (String.length u =? 0)%nat = false)
      by (destruct u; [congruence | reflexivity]).
    apply truthy_Some in Hne. rewrite Hne, Hlen. simpl.
    rewrite <- !startsWith_iff in Hpre.
    destruct Hpre as [-> | ->]; [reflexivity | now rewrite orb_true_r].
  - intros u -> Hne Hhttp Hhttps. unfold computeApiBaseUrl.
    assert (Hlen : (String.length u =? 0)%nat = false)
      by (destruct u; [congruence | reflexivity]).
    apply truthy_Some in Hne. rewrite Hne, Hlen. simpl.
    rewrite <- startsWith_iff in Hhttp, Hhttps.
    apply not_true_is_false in Hhttp, Hhttps. now rewrite Hhttp, Hhttps.
Qed.

Lemma computeApiBaseUrl_cases_witness :
  computeApiBaseUrl None = "http://localhost:8000"
  /\ computeApiBaseUrl (Some "http://api.internal:9000") = "http://api.internal:9000"
  /\ computeApiBaseUrl (Some "surf-api.onrender.com") = "https://surf-api.onrender.com".
Proof.
  pose proof (computeApiBaseUrl_cases None) as (H1 & _ & _).
  pose proof (computeApiBaseUrl_cases (Some "http://api.internal:9000")) as (_ & H2 & _).
  pose proof (computeApiBaseUrl_cases (Some "surf-api.onrender.com")) as (_ & _ & H3).
  split; [apply H1; now left|]. split.
  - apply H2; [reflexivity | discriminate | left; now exists "api.internal:9000"].
  - apply H3; [reflexivity | discriminate | |]; intros [rest H]; discriminate.
Defined.

Section DefaultsFacts.

Lemma assign_lookup (acc : gmap string value) (k : string) (v : value)
    (key : string) :
  acc !! "__proto__" = None ->
  assign acc k v !! key
  = if bool_decide (k = key) && negb (String.eqb key "__proto__") then Some v
    else acc !! key.
Proof.
  intros Hacc. unfold assign.
  destruct (String.eqb_spec k "__proto__") as [->|Hk]; simpl.
  - rewrite (bool_decide_eq_true_2 _ Hacc).
    case_bool_decide as Hkey; [|reflexivity].
    rewrite <- Hkey. simpl. now rewrite Hacc.
  - case_bool_decide as Hkey.
    + rewrite <- Hkey. apply String.eqb_neq in Hk. rewrite Hk. simpl.
      apply lookup_insert_eq.
    + now rewrite lookup_insert_ne.
Qed.

Lemma reduce_defaults_lookup (l : list (string * SettingConfig))
    (acc : gmap string value) (key : string) :
  NoDup (l.*1) -> acc !! "__proto__" = None ->
  foldl (fun acc '(key, config) => assign acc key (cfg_default config)) acc l
    !! key
  = match (list_to_map l : gmap string SettingConfig) !! key with
    | Some config =>
        if String.eqb key "__proto__" then None else Some (cfg_default config)
    | None => acc !! key
    end.
Proof.
  revert acc. induction l as [|[k c] l IH]; intros acc Hnd Hacc; simpl.
  - now rewrite lookup_empty.
  - apply NoDup_cons in Hnd as [Hk Hnd].
    rewrite IH; [|assumption|].
    + rewrite assign_lookup by assumption.
      destruct (decide (k = key)) as [Heq|Hne].
      * subst k. rewrite lookup_insert_eq.
        apply not_elem_of_list_to_map_1 in Hk. simpl in Hk. rewrite Hk.
        rewrite bool_decide_eq_true_2 by reflexivity. simpl.
        destruct (String.eqb key "__proto__") eqn:E; simpl; [|reflexivity].
        apply String.eqb_eq in E. subst key. exact Hacc.
      * rewrite lookup_insert_ne by assumption.
        rewrite bool_decide_eq_false_2 by assumption. reflexivity.
    + rewrite assign_lookup by assumption. simpl. rewrite andb_false_r.
      exact Hacc.
Qed.

(** The own entries of the defaults: every key of the schema but
    [__proto__], with the default of its spec. *)
Lemma computeDefaults_lookup (schema : gmap string SettingConfig) key :
  computeDefaults schema !! key
  = if String.eqb key "__proto__" then None else cfg_default <$> schema !! key.
Proof.
  unfold computeDefaults.
  rewrite reduce_defaults_lookup
    by (try apply NoDup_fst_map_to_list; apply lookup_empty).
  rewrite list_to_map_to_list, lookup_empty.
  destruct (schema !! key); simpl; [reflexivity|].
  now destruct (String.eqb key "__proto__").
Qed.

Lemma computeDefaults_closed (schema : gmap string SettingConfig) :
  computeDefaults schema = cfg_default <$> delete "__proto__" schema.
Proof.
  apply map_eq. intros key. rewrite computeDefaults_lookup, lookup_fmap.
  destruct (String.eqb_spec key "__proto__") as [->|Hne].
  - now rewrite lookup_delete_eq.
  - now rewrite lookup_delete_ne by congruence.
Qed.


(** The reduce gives the same mapping on every enumeration of the entries
    of the schema, the insertion order [Object.entries] follows included. *)
Lemma computeDefaults_any_order (schema : gmap string SettingConfig)
    (entries : list (string * SettingConfig)) :
  NoDup (entries.*1) -> list_to_map entries = schema ->
  foldl (fun acc '(key, config) => assign acc key (cfg_default config))
        ∅ entries
  = computeDefaults schema.
Proof.
  intros Hnd <-. apply map_eq. intros key.
  rewrite computeDefaults_lookup, reduce_defaults_lookup
    by (try assumption; apply lookup_empty).
  rewrite lookup_empty. destruct (_ !! key); simpl; [reflexivity|].
  now destruct (String.eqb key "__proto__").
Qed.

End DefaultsFacts.

(** C5. The defaults computed from a schema do not always have the keys
    of the schema: for a parameter named [__proto__] the reduce stores
    nothing.  On the schema [{temperature: ..., __proto__: ...}] the
    defaults are [{temperature: 0.7}]: the key [__proto__] of the schema
    is not a key of the mapping, and the two key sets differ. *)
Theorem computeDefaults_drops_proto_key :
  let schema : gmap string SettingConfig :=
    {[ "temperature" := Scenario.temperature;
       "__proto__" := Scenario.style ]} in
  computeDefaults schema = {[ "temperature" := VNum (Finite (7 # 10)) ]}
  /\ schema !! "__proto__" = Some Scenario.style
  /\ computeDefaults schema !! "__proto__" = None
  /\ dom (computeDefaults schema) <> dom schema.
Proof.
  intros schema.
  assert (Hs : schema !! "__proto__" = Some Scenario.style).
  { subst schema. rewrite lookup_insert_ne by discriminate.
    apply lookup_singleton_eq. }
  assert (Hd : computeDefaults schema !! "__proto__" = None)
    by (rewrite computeDefaults_lookup; reflexivity).
  split; [|split; [exact Hs | split; [exact Hd|]]].
  - rewrite computeDefaults_closed. subst schema.
    rewrite delete_insert_ne by discriminate.
    rewrite delete_singleton_eq, insert_empty, map_fmap_singleton.
    reflexivity.
  - intros Hdom.
    assert (Hin : "__proto__" ∈ dom schema) by (apply elem_of_dom; eauto).
    rewrite <- Hdom in Hin. apply elem_of_dom in Hin as [v Hv]. congruence.
Qed.

(** ** The render loop *)

Arguments settle : simpl never.

Section RenderLoop.

Lemma same_selection_refl s : same_selection s s.
Proof. repeat split. Qed.

Lemma same_selection_trans s1 s2 s3 :
  same_selection s1 s2 -> same_selection s2 s3 -> same_selection s1 s3.
Proof.
  unfold same_selection. intros (?&?&?&?&?&?&?) (?&?&?&?&?&?&?).
  repeat split; congruence.
Qed.

Lemma same_selection_ollama_deps s s' :
  same_selection s s' -> ollama_deps s = ollama_deps s'.
Proof. unfold ollama_deps. intros (?&?&?&?&_). congruence. Qed.

Lemma apply_updates_app us1 us2 s :
  apply_updates (us1 ++ us2) s = apply_updates us2 (apply_updates us1 s).
Proof. apply foldl_app. Qed.

(** The synchronous part of the Ollama effect only touches the loading flag
    and the error. *)
Lemma ollamaEffect_same_selection s t :
  same_selection t (apply_updates (ollamaEffect s).1 t).
Proof.
  unfold ollamaEffect. case_bool_decide; simpl; repeat split.
Qed.

Lemma provider_deps_agent_deps prev cur :
  provider_deps prev = provider_deps cur -> agent_deps prev = agent_deps cur.
Proof. unfold provider_deps, agent_deps. congruence. Qed.

(** The effect phase when only the Ollama effect can fire. *)
Lemma run_effects_provider_stable prev cur :
  provider_deps prev = provider_deps cur ->
  exists us started,
    run_effects prev cur = Some (us, started)
    /\ same_selection cur (apply_updates us cur).
Proof.
  intros Hp. pose proof (provider_deps_agent_deps _ _ Hp) as Ha.
  unfold run_effects.
  rewrite (bool_decide_eq_true_2 _ Ha), (bool_decide_eq_true_2 _ Hp).
  case_bool_decide.
  - exists [], []. split; [reflexivity | apply same_selection_refl].
  - pose proof (ollamaEffect_same_selection cur cur) as Hs.
    destruct (ollamaEffect cur) as [us started]. exists (us ++ []), started.
    split; [reflexivity|]. now rewrite app_nil_r.
Qed.

Lemma settle_S fuel prev cur net :
  settle (S fuel) prev cur net
  = if bool_decide (ollama_deps prev = ollama_deps cur) then
      Settled {| ui := cur; inflight := net |}
    else match run_effects prev cur with
         | None => Crashed
         | Some (us, started) =>
             settle fuel cur (apply_updates us cur) (net ++ started)
         end.
Proof. reflexivity. Qed.

(** Once the provider, the agent and the catalog are as in the previous
    render, two more renders reach quiescence, and they leave the
    selection as it is. *)
Lemma settle_provider_stable n prev cur net :
  provider_deps prev = provider_deps cur ->
  exists w, settle (S (S n)) prev cur net = Settled w
            /\ same_selection cur (ui w).
Proof.
  intros Hp. rewrite settle_S. case_bool_decide as Hq.
  - eexists. split; [reflexivity | apply same_selection_refl].
  - destruct (run_effects_provider_stable _ _ Hp) as (us & started & -> & Hs).
    rewrite settle_S, (bool_decide_eq_true_2 _ (same_selection_ollama_deps _ _ Hs)).
    eexists. split; [reflexivity | exact Hs].
Qed.

End RenderLoop.

(** ** Provider change *)

Section Cascade.

Lemma same_selection_setSelectedModel v s s' :
  same_selection s s' ->
  same_selection (setSelectedModel v s) (setSelectedModel v s').
Proof. unfold same_selection. simpl. intuition. Qed.

Lemma providerEffect_found s ags a cfg p e :
  agents s = Some ags -> selectedAgent s = Some a -> a <> "" ->
  ags !! a = Some cfg ->
  selectedProvider s = Some p -> p <> "" ->
  find (fun m => String.eqb (provider m) p) (supported_models cfg) = Some e ->
  providerEffect s
  = Some match models e with
         | model0 :: _ => [setSelectedModel (Some model0)]
         | [] => []
         end.
Proof.
  intros Hags Ha Hat Hcfg Hp Hpt Hfind. unfold providerEffect.
  rewrite Hags, Ha, Hp.
  apply truthy_Some in Hat, Hpt. rewrite Hat, Hpt. simpl.
  rewrite Hcfg. simpl. rewrite Hfind. now destruct (models e).
Qed.

(** With the agent in the catalog, the provider effect does not throw, and
    it queues at most one update, of the model. *)
Lemma providerEffect_shape s ags a cfg :
  agents s = Some ags -> selectedAgent s = Some a -> ags !! a = Some cfg ->
  providerEffect s = Some []
  \/ exists m, providerEffect s = Some [setSelectedModel (Some m)].
Proof.
  intros Hags Ha Hcfg. unfold providerEffect. rewrite Hags, Ha.
  destruct (selectedProvider s) as [p|]; [|now left].
  destruct (truthy (Some a) && truthy (Some p)); [|now left].
  rewrite Hcfg. simpl.
  destruct (find _ _) as [e|]; [|now left].
  destruct (models e) as [|m ?]; [now left | right; now exists m].
Qed.

(** The provider changed and the agent did not: the provider effect sets the
    model, and three more renders reach quiescence. *)
Lemma settle_provider_changed n prev cur net model0 :
  agent_deps prev = agent_deps cur ->
  selectedProvider prev <> selectedProvider cur ->
  providerEffect cur = Some [setSelectedModel (Some model0)] ->
  exists w, settle (S (S (S n))) prev cur net = Settled w
            /\ same_selection (setSelectedModel (Some model0) cur) (ui w).
Proof.
  intros Ha Hp Heff. rewrite settle_S.
  rewrite bool_decide_eq_false_2 by (unfold ollama_deps; congruence).
  unfold run_effects.
  rewrite (bool_decide_eq_false_2 (ollama_deps _ = _))
    by (unfold ollama_deps; congruence).
  rewrite (bool_decide_eq_true_2 _ Ha).
  rewrite (bool_decide_eq_false_2 (provider_deps _ = _))
    by (unfold provider_deps; congruence).
  pose proof (ollamaEffect_same_selection cur cur) as Hs.
  destruct (ollamaEffect cur) as [us1 started]. simpl in Hs.
  rewrite Heff. simpl. rewrite apply_updates_app. simpl.
  set (next := setSelectedModel (Some model0) (apply_updates us1 cur)).
  assert (Hnext : same_selection (setSelectedModel (Some model0) cur) next)
    by now apply same_selection_setSelectedModel.
  destruct (settle_provider_stable n cur next (net ++ started)) as (w & -> & Hw).
  { destruct Hs as (? & ? & ? & _). unfold provider_deps. simpl. congruence. }
  exists w. split; [reflexivity|]. eapply same_selection_trans; eassumption.
Qed.

End Cascade.

(** C4. With the catalog loaded and an agent of the catalog selected,
    changing the selected provider to a provider id [p] of one of the agent's
    Supported-Model Entries (whose model list is not empty) resets the model
    to the first model of the entry of [p], and leaves the model parameter
    mapping and the agent parameter mapping as they were.  The render loop
    settles within three renders. *)
Theorem provider_change_resets_model_only
    (fuel : nat) (w : World) (ags : AvailableAgents) (a : string)
    (cfg : AgentConfig) (p : string) (entry : SupportedModels)
    (model0 : string) :
  agents (ui w) = Some ags ->
  selectedAgent (ui w) = Some a -> a <> "" ->
  ags !! a = Some cfg ->
  find (fun m => String.eqb (provider m) p) (supported_models cfg) = Some entry ->
  head (models entry) = Some model0 ->
  p <> "" ->
  selectedProvider (ui w) <> Some p ->
  3 <= fuel ->
  exists w',
    step fuel (SelectProvider p) w = Settled w'
    /\ selectedProvider (ui w') = Some p
    /\ selectedModel (ui w') = Some model0
    /\ modelSettings (ui w') = modelSettings (ui w)
    /\ agentSettings (ui w') = agentSettings (ui w).
Proof.
  intros Hags Ha Hat Hcfg Hfind Hm Hpt Hp Hfuel.
  destruct fuel as [|[|[|n]]]; try lia.
  unfold step. simpl event_updates. cbn [apply_updates foldl].
  set (cur := setSelectedProvider (Some p) (ui w)).
  destruct (settle_provider_changed n (ui w) cur (inflight w) model0)
    as (w' & Hw' & Hs); [reflexivity | exact Hp | |].
  - rewrite (providerEffect_found cur ags a cfg p entry)
      by (try assumption; reflexivity).
    destruct (models entry); [discriminate | simpl in Hm; congruence].
  - exists w'. split; [exact Hw'|].
    destruct Hs as (_ & _ & Hp' & Hm' & Hms & Has & _). simpl in *.
    repeat split; congruence.
Qed.

(** ** Agent change *)

Section AgentChange.

Lemma agentEffect_found s ags a cfg entry0 :
  agents s = Some ags -> selectedAgent s = Some a -> a <> "" ->
  ags !! a = Some cfg ->
  head (supported_models cfg) = Some entry0 ->
  agentEffect s
  = Some [ setSelectedProvider (Some (provider entry0));
           setSelectedModel (head (models entry0));
           setModelSettings (fun _ => Some (computeDefaults (model_settings cfg)));
           setAgentSettings (fun _ => Some (computeDefaults (agent_settings cfg))) ].
Proof.
  intros Hags Ha Hat Hcfg Hhd. unfold agentEffect. rewrite Hags, Ha.
  apply truthy_Some in Hat. rewrite Hat, Hcfg. simpl. now rewrite Hhd.
Qed.

Lemma find_head {A} (f : A -> bool) (l : list A) (x : A) :
  head l = Some x -> f x = true -> find f l = Some x.
Proof. destruct l as [|y l]; simpl; [discriminate|]. intros [= ->] ->. reflexivity. Qed.

End AgentChange.


(** ** Quiescence *)

Section Quiescence.

Lemma apply_updates_keeps {A} (f : State -> A) us s :
  Forall (keeps f) us -> f (apply_updates us s) = f s.
Proof.
  intros H. revert s. induction H as [|u us Hu _ IH]; intros s.
  - reflexivity.
  - change (apply_updates (u :: us) s) with (apply_updates us (u s)).
    rewrite IH. apply Hu.
Qed.

Lemma ollamaEffect_keeps s : Forall (keeps ollama_deps) (ollamaEffect s).1.
Proof.
  unfold ollamaEffect. case_bool_decide; simpl; repeat constructor.
Qed.

Lemma agentEffect_keeps s us :
  agentEffect s = Some us -> Forall (keeps agent_deps) us.
Proof.
  unfold agentEffect. intros H.
  repeat (case_match; simplify_option_eq); repeat constructor.
Qed.

Lemma providerEffect_keeps s us :
  providerEffect s = Some us -> Forall (keeps provider_deps) us.
Proof.
  unfold providerEffect. intros H.
  repeat (case_match; simplify_option_eq); repeat constructor.
Qed.

Lemma keeps_ollama_provider u : keeps ollama_deps u -> keeps provider_deps u.
Proof.
  unfold keeps, ollama_deps, provider_deps. intros H s. specialize (H s). congruence.
Qed.

Lemma keeps_provider_agent u : keeps provider_deps u -> keeps agent_deps u.
Proof.
  unfold keeps, provider_deps, agent_deps. intros H s. specialize (H s). congruence.
Qed.

(** The effect phase, one effect after the other. *)
Lemma run_effects_inv prev cur us started :
  run_effects prev cur = Some (us, started) ->
  exists us1 us2 us3,
    us = us1 ++ us2 ++ us3
    /\ Forall (keeps ollama_deps) us1
    /\ (us2 = [] \/ (agent_deps prev <> agent_deps cur
                     /\ agentEffect cur = Some us2))
    /\ (us3 = [] \/ providerEffect cur = Some us3).
Proof.
  unfold run_effects. intros H.
  destruct (if bool_decide (ollama_deps prev = ollama_deps cur)
            then ([], []) else ollamaEffect cur) as [us1 st] eqn:E1.
  destruct (if bool_decide (agent_deps prev = agent_deps cur)
            then Some [] else agentEffect cur) as [us2|] eqn:E2; [|discriminate].
  destruct (if bool_decide (provider_deps prev = provider_deps cur)
            then Some [] else providerEffect cur) as [us3|] eqn:E3; [|discriminate].
  simpl in H. injection H as <- <-. exists us1, us2, us3.
  split; [reflexivity|]. repeat split.
  - destruct (bool_decide (ollama_deps prev = ollama_deps cur)).
    + injection E1 as <- <-. constructor.
    + pose proof (ollamaEffect_keeps cur) as H1. now rewrite E1 in H1.
  - destruct (bool_decide (agent_deps prev = agent_deps cur)) eqn:Ea.
    + injection E2 as <-. now left.
    + apply bool_decide_eq_false_1 in Ea. now right.
  - destruct (bool_decide (provider_deps prev = provider_deps cur)).
    + injection E3 as <-. now left.
    + now right.
Qed.

(** No effect ever changes the agent or the catalog. *)
Lemma run_effects_agent_deps prev cur us started :
  run_effects prev cur = Some (us, started) ->
  agent_deps (apply_updates us cur) = agent_deps cur.
Proof.
  intros (us1 & us2 & us3 & -> & H1 & H2 & H3)%run_effects_inv.
  apply apply_updates_keeps. rewrite !Forall_app. repeat split.
  - eapply Forall_impl; [exact H1|]. intros u ?.
    now apply keeps_provider_agent, keeps_ollama_provider.
  - destruct H2 as [-> | [_ H2]]; [constructor | eauto using agentEffect_keeps].
  - destruct H3 as [-> | H3]; [constructor|].
    eapply Forall_impl; [eauto using providerEffect_keeps|].
    intros u ?. now apply keeps_provider_agent.
Qed.

(** Only the agent effect changes the provider. *)
Lemma run_effects_provider_deps prev cur us started :
  agent_deps prev = agent_deps cur ->
  run_effects prev cur = Some (us, started) ->
  provider_deps (apply_updates us cur) = provider_deps cur.
Proof.
  intros Ha (us1 & us2 & us3 & -> & H1 & H2 & H3)%run_effects_inv.
  apply apply_updates_keeps. rewrite !Forall_app. repeat split.
  - eapply Forall_impl; [exact H1|]. intros u ?.
    now apply keeps_ollama_provider.
  - destruct H2 as [-> | [H2 _]]; [constructor | contradiction].
  - destruct H3 as [-> | H3]; [constructor | eauto using providerEffect_keeps].
Qed.

(** Whatever the previous and the current render are, four renders are
    enough: the loop settles or an effect throws. *)
Lemma settle_total n prev cur net :
  settle (4 + n) prev cur net <> OutOfFuel.
Proof.
  cbn [Nat.add]. rewrite settle_S. case_bool_decide; [discriminate|].
  destruct (run_effects prev cur) as [[us started]|] eqn:E; [|discriminate].
  apply run_effects_agent_deps in E as Ha.
  rewrite settle_S. case_bool_decide; [discriminate|].
  destruct (run_effects cur _) as [[us' started']|] eqn:E'; [|discriminate].
  apply run_effects_provider_deps in E' as Hp; [|now symmetry].
  destruct (settle_provider_stable n _ _ ((net ++ started) ++ started') (eq_sym Hp))
    as (w & -> & _).
  discriminate.
Qed.

End Quiescence.

(** ** The Ollama fetch *)

Section Fetch.

Lemma ollamaEffect_other_provider s :
  selectedProvider s <> Some "ollama" -> ollamaEffect s = ([], []).
Proof. intros H. unfold ollamaEffect. now rewrite bool_decide_eq_false_2. Qed.

(** While the provider is not Ollama, an update of the model alone starts
    nothing. *)
Lemma settle_other_provider n prev cur net :
  provider_deps prev = provider_deps cur ->
  selectedProvider cur <> Some "ollama" ->
  settle (S (S n)) prev cur net = Settled {| ui := cur; inflight := net |}.
Proof.
  intros Hp Hne. rewrite settle_S. case_bool_decide; [reflexivity|].
  unfold run_effects.
  rewrite (bool_decide_eq_false_2 (ollama_deps _ = _)) by assumption.
  rewrite (bool_decide_eq_true_2 _ (provider_deps_agent_deps _ _ Hp)).
  rewrite (bool_decide_eq_true_2 _ Hp).
  rewrite ollamaEffect_other_provider by assumption. simpl.
  rewrite settle_S, bool_decide_eq_true_2 by reflexivity.
  now rewrite app_nil_r.
Qed.

(** What a settled request does to the model: it is left alone, or set to
    the first tag of a non-empty answer. *)
Lemma fetchSettled_selection f r s :
  let s' := apply_updates (fetchSettled f r) s in
  provider_deps s' = provider_deps s
  /\ modelSettings s' = modelSettings s
  /\ agentSettings s' = agentSettings s
  /\ isLoadingOllamaModels s' = false
  /\ (selectedModel s' = selectedModel s
      \/ exists model0 rest,
           r = ResponseOk (Some (model0 :: rest))
           /\ selectedModel s' = Some (tag model0)).
Proof.
  destruct r as [[[|model0 rest]|]|error]; simpl; unfold fetchResolved; simpl.
  1,3,4: repeat split; now left.
  destruct (negb _); simpl; repeat split; [right; eauto | now left].
Qed.

(** A successful answer with at least one model compares the tags with the
    model the request captured when it was started. *)
Lemma fetchResolved_selectedModel f model0 rest s :
  selectedModel
    (apply_updates (fetchSettled f (ResponseOk (Some (model0 :: rest)))) s)
  = if includes (map tag (model0 :: rest)) (captured_selectedModel f)
    then selectedModel s
    else Some (tag model0).
Proof.
  simpl. unfold fetchResolved.
  now destruct (includes _ (captured_selectedModel f)).
Qed.

Lemma fetchSettled_list f r s :
  ollamaModels (apply_updates (fetchSettled f r) s)
  = match r with
    | ResponseOk data_models => default [] data_models
    | ResponseThrows _ =>
        map (fun model => {| tag := model; base_name := model |})
            (defaultModels f)
    end.
Proof.
  destruct r as [[[|model0 rest]|]|error]; simpl; unfold fetchResolved; simpl;
    try reflexivity.
  now destruct (negb _).
Qed.

Lemma fetchSettled_error f r s :
  ollamaError (apply_updates (fetchSettled f r) s)
  = match r with
    | ResponseOk _ => ollamaError s
    | ResponseThrows (ErrorObject message) => Some message
    | ResponseThrows NotAnError => Some "Failed to fetch Ollama models"
    end.
Proof.
  destruct r as [[[|model0 rest]|]|[msg|]]; simpl; unfold fetchResolved; simpl;
    try reflexivity.
  now destruct (negb _).
Qed.

End Fetch.

(** C1, as the code has it.  A response that arrives while the provider
    is not (or no longer) "ollama" is not discarded: the answer of a
    successful request replaces the dynamic model list, a failed request
    records its error and installs a fallback list (each entry's tag and
    base name are the same model identifier), and the loading flag is
    cleared.  The agent, the provider and both parameter mappings are left
    alone; the model is left alone or becomes the first tag of a non-empty
    answer. *)
Theorem stale_response_is_applied
    (fuel : nat) (w : World) (i : nat) (f : PendingFetch) (r : Response) :
  inflight w !! i = Some f ->
  selectedProvider (ui w) <> Some "ollama" ->
  2 <= fuel ->
  exists w',
    step fuel (FetchSettles i r) w = Settled w'
    /\ inflight w' = delete i (inflight w)
    /\ match r with
       | ResponseOk data_models =>
           ollamaModels (ui w') = default [] data_models
           /\ ollamaError (ui w') = ollamaError (ui w)
       | ResponseThrows error =>
           (exists fallback,
              ollamaModels (ui w')
              = map (fun model => {| tag := model; base_name := model |})
                    fallback)
           /\ ollamaError (ui w')
              = Some match error with
                     | ErrorObject message => message
                     | NotAnError => "Failed to fetch Ollama models"
                     end
       end
    /\ isLoadingOllamaModels (ui w') = false
    /\ selectedAgent (ui w') = selectedAgent (ui w)
    /\ selectedProvider (ui w') = selectedProvider (ui w)
    /\ modelSettings (ui w') = modelSettings (ui w)
    /\ agentSettings (ui w') = agentSettings (ui w)
    /\ (selectedModel (ui w') = selectedModel (ui w)
        \/ exists model0 rest,
             r = ResponseOk (Some (model0 :: rest))
             /\ selectedModel (ui w') = Some (tag model0)).
Proof.
  intros Hf Hne Hfuel. destruct fuel as [|[|n]]; try lia.
  unfold step, event_updates. rewrite Hf.
  pose proof (fetchSettled_selection f r (ui w)) as (Hp & Hms & Has & Hl & Hm).
  rewrite settle_other_provider.
  - eexists. split; [reflexivity|]. cbn [ui inflight].
    split; [reflexivity|]. split.
    + rewrite fetchSettled_list, fetchSettled_error.
      destruct r as [data_models|[message|]]; split; eauto.
    + unfold provider_deps in Hp. simplify_eq.
      repeat split; try assumption; congruence.
  - now symmetry.
  - unfold provider_deps in Hp. congruence.
Qed.

(** ** The scenario *)

Section ScenarioFacts.
Import Scenario.

(** When the catalog arrives, the effects put the drawer in [loaded]. *)
Lemma catalog_arrived_to_loaded :
  settle 4 mounted catalog_arrived [] = Settled loaded.
Proof. vm_compute. reflexivity. Qed.

Lemma loaded_to_on_ollama :
  step 4 (SelectProvider "ollama") loaded = Settled on_ollama.
Proof. vm_compute. reflexivity. Qed.

Lemma on_ollama_to_back_on_openai :
  step 4 (SelectProvider "openai") on_ollama = Settled back_on_openai.
Proof. vm_compute. reflexivity. Qed.

Lemma on_ollama_to_critic_on_ollama :
  step 4 (SelectAgent "critic") on_ollama = Settled critic_on_ollama.
Proof. vm_compute. reflexivity. Qed.

(** C1, counterexample.  The provider is switched to "ollama", which
    starts a request, and back to "openai" before the request settles.  The
    answer then arrives while the provider is "openai": it replaces
    the dynamic model list and moves the selected model to the first tag. *)
Lemma stale_response_alters_model_and_list :
  run 4 [SelectProvider "ollama"; SelectProvider "openai"] loaded
  = Settled back_on_openai
  /\ selectedProvider (ui back_on_openai) = Some "openai"
  /\ selectedModel (ui back_on_openai) = Some "gpt-4"
  /\ ollamaModels (ui back_on_openai) = []
  /\ exists w',
       step 4 (FetchSettles 0 (ResponseOk (Some [mistral]))) back_on_openai
       = Settled w'
       /\ selectedProvider (ui w') = Some "openai"
       /\ selectedModel (ui w') = Some "mistral"
       /\ ollamaModels (ui w') = [mistral].
Proof.
  split; [vm_compute; reflexivity|]. repeat split.
  eexists. split; [vm_compute; reflexivity|]. repeat split.
Qed.

Lemma stale_response_is_applied_witness :
  exists w',
    step 2 (FetchSettles 0 (ResponseOk (Some [mistral]))) back_on_openai
    = Settled w'
    /\ ollamaModels (ui w') = [mistral]
    /\ selectedProvider (ui w') = Some "openai".
Proof.
  destruct (stale_response_is_applied 2 back_on_openai 0
              (request "gpt-4" "writer") (ResponseOk (Some [mistral])))
    as (w' & Hstep & _ & (Hlist & _) & _ & _ & Hp & _).
  - reflexivity.
  - discriminate.
  - lia.
  - exists w'. split; [exact Hstep|]. split; [exact Hlist | exact Hp].
Defined.

(** C8, the failing input.  The provider select is put on "ollama": the
    request started by that render still carries "gpt-4", the model of the
    hosted provider, while the provider effect moves the selection to
    "llama2".  The runtime answers with the tags "mistral" and "llama2".
    The selected model "llama2" is among the tags, and yet the selection is
    moved to the first tag. *)
Lemma fetched_list_overrides_listed_model :
  step 4 (SelectProvider "ollama") loaded = Settled on_ollama
  /\ selectedModel (ui on_ollama) = Some "llama2"
  /\ includes (map tag [mistral; llama2]) (selectedModel (ui on_ollama)) = true
  /\ exists w',
       step 4 (FetchSettles 0 (ResponseOk (Some [mistral; llama2]))) on_ollama
       = Settled w'
       /\ selectedModel (ui w') = Some "mistral".
Proof.
  split; [vm_compute; reflexivity|]. repeat split.
  eexists. split; [vm_compute; reflexivity|]. reflexivity.
Qed.

(** C9, the failing input.  On "ollama" under [writer], the agent select is
    put on "critic", whose first provider is "ollama" too; then the request
    started under [writer] fails.  The error is recorded and the model is
    left alone, but the fallback list is the one of [writer] ("llama2"), the
    agent the request captured, and not the one of the active agent
    [critic] ("phi3"). *)
Lemma failed_fetch_falls_back_to_captured_agent :
  step 4 (SelectAgent "critic") on_ollama = Settled critic_on_ollama
  /\ selectedAgent (ui critic_on_ollama) = Some "critic"
  /\ exists w',
       step 4 (FetchSettles 0 (ResponseThrows (ErrorObject "Failed to fetch")))
            critic_on_ollama
       = Settled w'
       /\ selectedAgent (ui w') = Some "critic"
       /\ selectedModel (ui w') = Some "phi3"
       /\ ollamaError (ui w') = Some "Failed to fetch"
       /\ ollamaModels (ui w') = [ {| tag := "llama2"; base_name := "llama2" |} ]
       /\ defaultModels (capture (ui w')) = ["phi3"].
Proof.
  split; [vm_compute; reflexivity|]. repeat split.
  eexists. split; [vm_compute; reflexivity|]. repeat split.
Qed.

End ScenarioFacts.

(** ** [handleSettingChange] and [handleSave] *)

Section Handlers.

(** A setting change touches no dependency of any effect. *)
Lemma handleSettingChange_ollama_deps ty key v s :
  ollama_deps (handleSettingChange ty key v s) = ollama_deps s.
Proof. now destruct ty. Qed.

Lemma handleSettingChange_settings ty key v s :
  settings_of ty (handleSettingChange ty key v s)
  = Some (<[key := v]> (default ∅ (settings_of ty s))).
Proof. now destruct ty. Qed.

End Handlers.

(** C2, as the code has it.  The per-field update sets that key to the
    value in the mapping of its family (an undefined mapping counts as
    empty) and preserves every other entry of it; it adds the key when the
    mapping lacks it, without looking at the schema of the selected agent.
    The mapping of the other family, the selection and the requests in
    flight are left alone, and nothing throws. *)
Theorem setting_change_sets_key
    (fuel : nat) (ty : settingType) (key : string) (v : value) (w : World) :
  exists w' m',
    step (S fuel) (SettingChange ty key v) w = Settled w'
    /\ settings_of ty (ui w') = Some m'
    /\ m' !! key = Some v
    /\ (forall k, k <> key -> m' !! k = default ∅ (settings_of ty (ui w)) !! k)
    /\ settings_of (match ty with model => agent | agent => model end) (ui w')
       = settings_of (match ty with model => agent | agent => model end) (ui w)
    /\ ollama_deps (ui w') = ollama_deps (ui w)
    /\ inflight w' = inflight w.
Proof.
  unfold step, event_updates. cbn [apply_updates foldl].
  rewrite settle_S, bool_decide_eq_true_2
    by (symmetry; apply handleSettingChange_ollama_deps).
  eexists _, _. split; [reflexivity|]. cbn [ui inflight].
  split; [apply handleSettingChange_settings|].
  split; [apply lookup_insert_eq|].
  split; [intros k Hk; now apply lookup_insert_ne|].
  split; [now destruct ty|].
  split; [apply handleSettingChange_ollama_deps | reflexivity].
Qed.

(** C7.  [handleSave] makes no call at all (no write to the settings
    store, no reset) when one of the agent, the provider, the model, the
    model mapping and the agent mapping is absent (or an identifier is the
    empty string, which the guard treats like an absent one); when all five
    are present it writes the five fields, with the stored provider keys,
    to the settings store, and then clears the conversation, resets the
    session, closes the drawer and navigates home, in that order. *)
Theorem handleSave_gate (s : State) (currentSettings : option SurfSettings) :
  (selectedAgent s = None \/ selectedProvider s = None
   \/ selectedModel s = None \/ modelSettings s = None
   \/ agentSettings s = None ->
   handleSave s currentSettings = [])
  /\ (selectedAgent s = Some "" \/ selectedProvider s = Some ""
      \/ selectedModel s = Some "" ->
      handleSave s currentSettings = [])
  /\ (forall a p m ms gs,
        selectedAgent s = Some a -> selectedProvider s = Some p ->
        selectedModel s = Some m -> modelSettings s = Some ms ->
        agentSettings s = Some gs ->
        a <> "" -> p <> "" -> m <> "" ->
        handleSave s currentSettings
        = [ updateSettings
              {| st_selectedAgent := a;
                 st_selectedProvider := p;
                 st_selectedModel := m;
                 st_modelSettings := ms;
                 st_agentSettings := gs;
                 st_providerApiKeys :=
                   default ∅ (st_providerApiKeys <$> currentSettings) |};
            clearInitialState; resetSession; closeSettings; router_push "/" ]).
Proof.
  unfold handleSave. repeat split.
  - intros H. repeat case_match; try reflexivity.
    decompose [or] H; congruence.
  - intros H.
    destruct (selectedAgent s) as [a|], (selectedProvider s) as [p|],
      (selectedModel s) as [m|], (modelSettings s), (agentSettings s);
      try reflexivity.
    decompose [or] H; simplify_eq; simpl; now rewrite ?orb_true_r.
  - intros a p m ms gs -> -> -> -> -> Ha Hp Hm.
    apply truthy_Some in Ha, Hp, Hm. now rewrite Ha, Hp, Hm.
Qed.

(** ** The properties on the scenario *)

Section ScenarioWitnesses.
Import Scenario.

Lemma sanitizeNumber_clamp_witness :
  number_le (Finite 0) (sanitizeNumber temperature (Finite (3 # 2))) = true
  /\ number_le (sanitizeNumber temperature (Finite (3 # 2))) (Finite 1) = true.
Proof.
  destruct (sanitizeNumber_clamp temperature (Finite (3 # 2))) as (_ & H & _).
  apply (H (Finite 0) (Finite 1)); reflexivity.
Defined.

(** C2, counterexample.  The model schema of the selected agent has no key
    "verbosity"; the update is applied all the same, and the model mapping
    has the key afterwards. *)
Lemma setting_change_unknown_key_is_kept :
  model_settings writer !! "verbosity" = None
  /\ selectedAgent (ui loaded) = Some "writer"
  /\ exists w',
       step 1 (SettingChange model "verbosity" (VStr "high")) loaded
       = Settled w'
       /\ modelSettings (ui w') <> modelSettings (ui loaded)
       /\ (modelSettings (ui w') ≫= (.!! "verbosity")) = Some (VStr "high").
Proof.
  split; [vm_compute; reflexivity|]. split; [reflexivity|].
  eexists. split; [vm_compute; reflexivity|].
  split; [vm_compute; discriminate | vm_compute; reflexivity].
Qed.

Lemma setting_change_sets_key_witness :
  exists w' m',
    step 1 (SettingChange model "temperature" (VNum (Finite (1 # 2)))) loaded
    = Settled w'
    /\ modelSettings (ui w') = Some m'
    /\ m' !! "temperature" = Some (VNum (Finite (1 # 2)))
    /\ agentSettings (ui w') = agentSettings (ui loaded).
Proof.
  destruct (setting_change_sets_key 0 model "temperature"
              (VNum (Finite (1 # 2))) loaded)
    as (w' & m' & Hstep & Hm' & Hkey & _ & Hother & _).
  exists w', m'. repeat split; assumption.
Defined.


Lemma provider_change_resets_model_only_witness :
  exists w',
    step 3 (SelectProvider "ollama") loaded = Settled w'
    /\ selectedProvider (ui w') = Some "ollama"
    /\ selectedModel (ui w') = Some "llama2"
    /\ modelSettings (ui w') = modelSettings (ui loaded)
    /\ agentSettings (ui w') = agentSettings (ui loaded).
Proof.
  apply (provider_change_resets_model_only 3 loaded catalog "writer"
           writer "ollama" {| provider := "ollama"; models := ["llama2"] |}
           "llama2");
    try reflexivity; try discriminate; lia.
Defined.

Lemma handleSave_gate_witness :
  handleSave (setSelectedModel None (ui loaded)) None = []
  /\ handleSave (ui loaded) None
     = [ updateSettings
           {| st_selectedAgent := "writer";
              st_selectedProvider := "openai";
              st_selectedModel := "gpt-4";
              st_modelSettings := computeDefaults (model_settings writer);
              st_agentSettings := computeDefaults (agent_settings writer);
              st_providerApiKeys := ∅ |};
         clearInitialState; resetSession; closeSettings; router_push "/" ].
Proof.
  split.
  - destruct (handleSave_gate (setSelectedModel None (ui loaded)) None)
      as (H & _ & _).
    apply H. right; right; left; reflexivity.
  - destruct (handleSave_gate (ui loaded) None) as (_ & _ & H).
    apply H; try reflexivity; discriminate.
Defined.

End ScenarioWitnesses.

(** * Further properties *)

Import Safety.

(** ** The render loop never runs away, and when it throws *)

Section LoopSafety.

Lemma selection_ok_agent_deps s s' :
  agent_deps s = agent_deps s' -> selection_ok s -> selection_ok s'.
Proof.
  unfold agent_deps, selection_ok. intros [= Ha Hags] H ags a ? ? ?.
  apply H; congruence.
Qed.

Lemma agentEffect_safe s : selection_ok s -> is_Some (agentEffect s).
Proof.
  intros H. unfold agentEffect.
  destruct (agents s) as [ags|] eqn:Hags; [|eauto].
  destruct (selectedAgent s) as [a|] eqn:Ha; [|eauto].
  destruct (truthy (Some a)) eqn:Ht; [|eauto].
  apply truthy_Some in Ht.
  destruct (H ags a Hags Ha Ht) as (cfg & -> & Hne). simpl.
  destruct (supported_models cfg); [done | simpl; eauto].
Qed.

Lemma providerEffect_safe s : selection_ok s -> is_Some (providerEffect s).
Proof.
  intros H. unfold providerEffect.
  destruct (agents s) as [ags|] eqn:Hags; [|eauto].
  destruct (selectedAgent s) as [a|] eqn:Ha; [|eauto].
  destruct (selectedProvider s) as [p|]; [|eauto].
  destruct (truthy (Some a)) eqn:Ht; [|simpl; eauto].
  apply truthy_Some in Ht.
  destruct (H ags a Hags Ha Ht) as (cfg & -> & Hne).
  destruct (truthy (Some p)); simpl; [|eauto].
  destruct (find _ _) as [e|]; [|eauto]. destruct (models e); eauto.
Qed.

Lemma run_effects_safe prev cur :
  selection_ok cur -> is_Some (run_effects prev cur).
Proof.
  intros H. unfold run_effects.
  destruct (if bool_decide (ollama_deps prev = ollama_deps cur)
            then ([], []) else ollamaEffect cur) as [us1 st].
  destruct (agentEffect_safe cur H) as [us2 ->].
  destruct (providerEffect_safe cur H) as [us3 ->].
  repeat case_bool_decide; simpl; eauto.
Qed.

(** With the selected agent in the catalog the loop settles, on a state
    with the same agent and catalog. *)
Lemma settle_safe n prev cur net :
  selection_ok cur ->
  exists w', settle (4 + n) prev cur net = Settled w'
             /\ agent_deps (ui w') = agent_deps cur.
Proof.
  intros Hok. cbn [Nat.add]. rewrite settle_S. case_bool_decide; [eauto|].
  destruct (run_effects_safe prev cur Hok) as [[us started] E]. rewrite E.
  apply run_effects_agent_deps in E as Ha.
  set (s2 := apply_updates us cur) in *.
  assert (Hok2 : selection_ok s2)
    by (eapply selection_ok_agent_deps; [symmetry; exact Ha | exact Hok]).
  rewrite settle_S. case_bool_decide; [eexists; split; [reflexivity | exact Ha]|].
  destruct (run_effects_safe cur s2 Hok2) as [[us' started'] E']. rewrite E'.
  apply run_effects_provider_deps in E' as Hp; [|now symmetry].
  destruct (settle_provider_stable n s2 (apply_updates us' s2)
              ((net ++ started) ++ started') (eq_sym Hp)) as (w' & -> & Hs).
  exists w'. split; [reflexivity|].
  destruct Hs as (Hs1 & Hs2 & _).
  apply provider_deps_agent_deps in Hp.
  unfold agent_deps in *. simpl in *. congruence.
Qed.

Lemma event_updates_agent_deps ev w :
  (forall v, ev <> SelectAgent v) ->
  agent_deps (apply_updates (event_updates ev w).1 (ui w)) = agent_deps (ui w).
Proof.
  intros Hev. destruct ev as [v|v|v|ty key v|i r]; simpl; try reflexivity.
  - now destruct (Hev v).
  - now destruct ty.
  - destruct (inflight w !! i) as [f|]; [|reflexivity]. simpl.
    pose proof (fetchSettled_selection f r (ui w)) as (Hp & _).
    now apply provider_deps_agent_deps.
Qed.

End LoopSafety.

(** X1. Whatever the state, the requests in flight and the event, four
    renders are enough for the effects of the drawer to come to rest: the
    loop of re-renders never runs away. *)
Theorem step_needs_at_most_four_renders (n : nat) (ev : Event) (w : World) :
  step (4 + n) ev w <> OutOfFuel.
Proof.
  unfold step. destruct (event_updates ev w) as [us net]. apply settle_total.
Qed.

(** X2. As long as the selected agent is an agent of the catalog that has
    at least one supported-model entry, no event makes an effect throw: the
    drawer settles, and the selected agent still is such an agent.  For the
    agent select this asks that the chosen key is one. *)
Theorem step_never_throws
    (fuel : nat) (ev : Event) (w : World) :
  selection_ok (ui w) ->
  (forall v, ev = SelectAgent v ->
             selection_ok (setSelectedAgent (Some v) (ui w))) ->
  4 <= fuel ->
  exists w', step fuel ev w = Settled w'
             /\ selection_ok (ui w')
             /\ agents (ui w') = agents (ui w).
Proof.
  intros Hok Hev Hfuel.
  destruct fuel as [|[|[|[|n]]]]; try lia.
  change (S (S (S (S n)))) with (4 + n).
  unfold step.
  assert (Hcur : selection_ok (apply_updates (event_updates ev w).1 (ui w))
                 /\ agents (apply_updates (event_updates ev w).1 (ui w))
                    = agents (ui w)).
  { assert (Hcase : (exists v, ev = SelectAgent v)
                     \/ forall v, ev <> SelectAgent v)
      by (destruct ev; [left; eauto | right; discriminate ..]).
    destruct Hcase as [[v ->]|Hno].
    - split; [now apply Hev | reflexivity].
    - pose proof (event_updates_agent_deps ev w) as Ha.
      assert (Ha' : agent_deps (apply_updates (event_updates ev w).1 (ui w))
                    = agent_deps (ui w))
        by (apply Ha; exact Hno).
      split; [eapply selection_ok_agent_deps; [symmetry; exact Ha' | exact Hok]|].
      unfold agent_deps in Ha'. congruence. }
  destruct (event_updates ev w) as [us net]. simpl in Hcur.
  destruct Hcur as [Hcur Hags].
  destruct (settle_safe n (ui w) (apply_updates us (ui w)) net Hcur)
    as (w' & -> & Ha).
  exists w'. split; [reflexivity|]. split.
  - eapply selection_ok_agent_deps; [symmetry; exact Ha | exact Hcur].
  - unfold agent_deps in Ha. congruence.
Qed.

(** X3. Selecting an agent key that the loaded catalog does not have, or an
    agent of the catalog whose list of supported models is empty, makes the
    agent effect throw a TypeError at the next render. *)
Theorem select_agent_without_models_throws
    (fuel : nat) (w : World) (ags : AvailableAgents) (v : string) :
  agents (ui w) = Some ags ->
  v <> "" ->
  selectedAgent (ui w) <> Some v ->
  (ags !! v = None
   \/ exists cfg, ags !! v = Some cfg /\ supported_models cfg = []) ->
  step (S fuel) (SelectAgent v) w = Crashed.
Proof.
  intros Hags Hv Hne Hbad. unfold step. simpl event_updates.
  cbn [apply_updates foldl]. rewrite settle_S.
  rewrite bool_decide_eq_false_2 by (unfold ollama_deps; simpl; congruence).
  unfold run_effects.
  rewrite (bool_decide_eq_false_2 (agent_deps _ = _))
    by (unfold agent_deps; simpl; congruence).
  destruct (if bool_decide _ then _ else ollamaEffect _) as [us1 st].
  assert (Heff : agentEffect (setSelectedAgent (Some v) (ui w)) = None).
  { unfold agentEffect. simpl. rewrite Hags.
    apply truthy_Some in Hv. simpl in Hv. rewrite Hv.
    destruct Hbad as [-> | (cfg & -> & Hnil)]; [reflexivity|].
    simpl. now rewrite Hnil. }
  now rewrite Heff.
Qed.

(** ** Requests: when one starts, and what a settling one leaves behind *)

Section Requests.

(** The loop from a render whose provider, agent and catalog are those of
    the previous one: the Ollama effect alone can run, once. *)
Lemma settle_provider_stable_eq n prev cur net :
  provider_deps prev = provider_deps cur ->
  settle (S (S n)) prev cur net
  = Settled
      (if bool_decide (ollama_deps prev = ollama_deps cur)
          || negb (bool_decide (selectedProvider cur = Some "ollama"))
       then {| ui := cur; inflight := net |}
       else {| ui := setOllamaError None (setIsLoadingOllamaModels true cur);
               inflight := net ++ [capture cur] |}).
Proof.
  intros Hp. rewrite settle_S. case_bool_decide as Hq; [reflexivity|].
  unfold run_effects.
  rewrite (bool_decide_eq_false_2 (ollama_deps _ = _)) by assumption.
  rewrite (bool_decide_eq_true_2 _ (provider_deps_agent_deps _ _ Hp)).
  rewrite (bool_decide_eq_true_2 _ Hp).
  unfold ollamaEffect. case_bool_decide as Ho; simpl.
  - rewrite settle_S, bool_decide_eq_true_2 by reflexivity. reflexivity.
  - rewrite settle_S, bool_decide_eq_true_2 by reflexivity.
    now rewrite app_nil_r.
Qed.

End Requests.

(** X4. Choosing another model changes nothing but the model, except on
    "ollama": there it also starts a request that captures the new model,
    turns the loading flag on and clears the error.  No effect can throw. *)
Theorem select_model_restarts_fetch_on_ollama
    (fuel : nat) (w : World) (m : string) :
  selectedModel (ui w) <> Some m ->
  2 <= fuel ->
  exists w',
    step fuel (SelectModel m) w = Settled w'
    /\ selectedModel (ui w') = Some m
    /\ same_selection (setSelectedModel (Some m) (ui w)) (ui w')
    /\ (selectedProvider (ui w) = Some "ollama" ->
        inflight w'
        = inflight w ++ [ {| captured_selectedModel := Some m;
                             captured_selectedAgent := selectedAgent (ui w);
                             captured_agents := agents (ui w) |} ]
        /\ isLoadingOllamaModels (ui w') = true
        /\ ollamaError (ui w') = None)
    /\ (selectedProvider (ui w) <> Some "ollama" ->
        inflight w' = inflight w
        /\ isLoadingOllamaModels (ui w') = isLoadingOllamaModels (ui w)
        /\ ollamaError (ui w') = ollamaError (ui w)).
Proof.
  intros Hne Hfuel. destruct fuel as [|[|n]]; try lia.
  unfold step. simpl event_updates. cbn [apply_updates foldl].
  rewrite settle_provider_stable_eq by reflexivity.
  rewrite bool_decide_eq_false_2 by (unfold ollama_deps; simpl; congruence).
  simpl orb. eexists. split; [reflexivity|].
  case_bool_decide as Ho; simpl in Ho; simpl.
  - repeat split; intros; first [reflexivity | congruence].
  - repeat split; intros; first [reflexivity | congruence].
Qed.

(** X5. A settling request whose answer moves the selection while the
    provider is "ollama" starts a new request, for the model it selected,
    and the loading flag is on again when the drawer comes to rest. *)
Theorem answer_that_moves_model_refetches
    (fuel : nat) (w : World) (i : nat) (f : PendingFetch)
    (model0 : OllamaModel) (rest : list OllamaModel) :
  inflight w !! i = Some f ->
  selectedProvider (ui w) = Some "ollama" ->
  includes (map tag (model0 :: rest)) (captured_selectedModel f) = false ->
  selectedModel (ui w) <> Some (tag model0) ->
  2 <= fuel ->
  exists w',
    step fuel (FetchSettles i (ResponseOk (Some (model0 :: rest)))) w
    = Settled w'
    /\ selectedModel (ui w') = Some (tag model0)
    /\ ollamaModels (ui w') = model0 :: rest
    /\ isLoadingOllamaModels (ui w') = true
    /\ inflight w'
       = delete i (inflight w)
         ++ [ {| captured_selectedModel := Some (tag model0);
                 captured_selectedAgent := selectedAgent (ui w);
                 captured_agents := agents (ui w) |} ].
Proof.
  intros Hf Ho Hinc Hne Hfuel. destruct fuel as [|[|n]]; try lia.
  unfold step, event_updates. rewrite Hf.
  set (r := ResponseOk (Some (model0 :: rest))).
  pose proof (fetchSettled_selection f r (ui w)) as (Hp & _).
  pose proof (fetchResolved_selectedModel f model0 rest (ui w)) as Hm.
  pose proof (fetchSettled_list f r (ui w)) as Hl.
  fold r in Hm. rewrite Hinc in Hm.
  set (s1 := apply_updates (fetchSettled f r) (ui w)) in *.
  rewrite settle_provider_stable_eq by (symmetry; exact Hp).
  rewrite bool_decide_eq_false_2 by (unfold ollama_deps; congruence).
  unfold provider_deps in Hp.
  rewrite (bool_decide_eq_true_2 (selectedProvider _ = _)) by congruence.
  simpl orb. cbv iota. eexists. split; [reflexivity|].
  unfold capture. cbn -[s1]. repeat split; try congruence. exact Hl.
Qed.

(** X6. A settling request that leaves the selection alone (it failed, it
    listed no model, or the model it captured is among the tags) turns the
    loading flag off and starts nothing, whatever else is still in flight:
    the flag follows the first request that settles, not the last one. *)
Theorem settled_request_clears_loading_flag
    (fuel : nat) (w : World) (i : nat) (f : PendingFetch) (r : Response) :
  inflight w !! i = Some f ->
  (forall model0 rest,
     r = ResponseOk (Some (model0 :: rest)) ->
     includes (map tag (model0 :: rest)) (captured_selectedModel f) = true) ->
  1 <= fuel ->
  exists w',
    step fuel (FetchSettles i r) w = Settled w'
    /\ isLoadingOllamaModels (ui w') = false
    /\ selectedModel (ui w') = selectedModel (ui w)
    /\ inflight w' = delete i (inflight w).
Proof.
  intros Hf Hr Hfuel. destruct fuel as [|n]; try lia.
  unfold step, event_updates. rewrite Hf. rewrite settle_S.
  pose proof (fetchSettled_selection f r (ui w)) as (Hp & _ & _ & Hl & Hm).
  assert (Hm' : selectedModel (apply_updates (fetchSettled f r) (ui w))
                = selectedModel (ui w)).
  { destruct Hm as [Hm | (model0 & rest & -> & _)]; [exact Hm|].
    rewrite fetchResolved_selectedModel. now rewrite Hr. }
  rewrite bool_decide_eq_true_2
    by (unfold ollama_deps; unfold provider_deps in Hp;
        injection Hp as -> -> ->; now rewrite Hm').
  eexists. split; [reflexivity|]. simpl. repeat split; assumption.
Qed.

Section ProviderSwitch.

Lemma providerEffect_updates s us :
  providerEffect s = Some us ->
  us = [] \/ exists m, us = [setSelectedModel (Some m)].
Proof.
  unfold providerEffect. intros H.
  repeat (case_match; simplify_option_eq); eauto.
Qed.

(** The first render after the provider select changed, with the agent
    effect at rest. *)
Lemma first_render_after_provider_change w p :
  selectedProvider (ui w) <> Some p ->
  selection_ok (ui w) ->
  let cur := setSelectedProvider (Some p) (ui w) in
  exists us3,
    providerEffect cur = Some us3
    /\ run_effects (ui w) cur
       = Some ((ollamaEffect cur).1 ++ [] ++ us3, (ollamaEffect cur).2).
Proof.
  intros Hne Hok cur.
  destruct (providerEffect_safe cur) as [us3 Hus3];
    [eapply selection_ok_agent_deps; [|exact Hok]; reflexivity|].
  exists us3. split; [exact Hus3|]. unfold run_effects.
  rewrite (bool_decide_eq_false_2 (ollama_deps _ = _))
    by (unfold ollama_deps; simpl; congruence).
  rewrite (bool_decide_eq_true_2 (agent_deps _ = _)) by reflexivity.
  rewrite (bool_decide_eq_false_2 (provider_deps _ = _))
    by (unfold provider_deps; simpl; congruence).
  rewrite Hus3. now destruct (ollamaEffect cur).
Qed.

End ProviderSwitch.

(** X7. Putting the provider select on a provider other than "ollama"
    neither starts a request nor drops one that is in flight, and leaves the
    dynamic model list, the loading flag and the error as they are. *)
Theorem hosted_provider_starts_no_request
    (fuel : nat) (w : World) (p : string) :
  p <> "ollama" ->
  selection_ok (ui w) ->
  3 <= fuel ->
  exists w',
    step fuel (SelectProvider p) w = Settled w'
    /\ selectedProvider (ui w') = Some p
    /\ inflight w' = inflight w
    /\ ollamaModels (ui w') = ollamaModels (ui w)
    /\ isLoadingOllamaModels (ui w') = isLoadingOllamaModels (ui w)
    /\ ollamaError (ui w') = ollamaError (ui w).
Proof.
  intros Hp Hok Hfuel. destruct fuel as [|[|[|n]]]; try lia.
  unfold step. simpl event_updates. cbn [apply_updates foldl].
  destruct (decide (selectedProvider (ui w) = Some p)) as [Hsame|Hne].
  - rewrite settle_S, bool_decide_eq_true_2
      by (unfold ollama_deps; simpl; congruence).
    eexists. split; [reflexivity|]. simpl. repeat split.
  - rewrite settle_S.
    rewrite bool_decide_eq_false_2 by (unfold ollama_deps; simpl; congruence).
    destruct (first_render_after_provider_change w p Hne Hok)
      as (us3 & Hus3 & ->).
    rewrite ollamaEffect_other_provider by (simpl; congruence). simpl.
    rewrite settle_provider_stable_eq.
    2:{ destruct (providerEffect_updates _ _ Hus3) as [-> | [m ->]]; reflexivity. }
    rewrite (bool_decide_eq_false_2 (selectedProvider _ = _)).
    2:{ destruct (providerEffect_updates _ _ Hus3) as [-> | [m ->]];
        simpl; congruence. }
    rewrite orb_true_r. eexists. split; [reflexivity|].
    destruct (providerEffect_updates _ _ Hus3) as [-> | [m ->]];
      simpl; rewrite ?app_nil_r; repeat split.
Qed.

Section SwitchToOllama.

Lemma switch_to_ollama (fuel : nat) (w : World) :
  selectedProvider (ui w) <> Some "ollama" ->
  selection_ok (ui w) ->
  3 <= fuel ->
  exists w' later,
    step fuel (SelectProvider "ollama") w = Settled w'
    /\ agent_deps (ui w') = agent_deps (ui w)
    /\ selectedProvider (ui w') = Some "ollama"
    /\ isLoadingOllamaModels (ui w') = true
    /\ ollamaError (ui w') = None
    /\ inflight w'
       = inflight w
         ++ {| captured_selectedModel := selectedModel (ui w);
               captured_selectedAgent := selectedAgent (ui w);
               captured_agents := agents (ui w) |} :: later.
Proof.
  intros Hne Hok Hfuel. destruct fuel as [|[|[|n]]]; try lia.
  unfold step. simpl event_updates. cbn [apply_updates foldl].
  rewrite settle_S.
  rewrite bool_decide_eq_false_2 by (unfold ollama_deps; simpl; congruence).
  destruct (first_render_after_provider_change w "ollama" Hne Hok)
    as (us3 & Hus3 & ->).
  unfold ollamaEffect. rewrite bool_decide_eq_true_2 by reflexivity.
  cbn [fst snd]. rewrite settle_provider_stable_eq.
  2:{ destruct (providerEffect_updates _ _ Hus3) as [-> | [m ->]]; reflexivity. }
  rewrite (bool_decide_eq_true_2 (selectedProvider _ = _)).
  2:{ destruct (providerEffect_updates _ _ Hus3) as [-> | [m ->]]; reflexivity. }
  rewrite orb_false_r.
  destruct (providerEffect_updates _ _ Hus3) as [-> | [m ->]].
  - rewrite bool_decide_eq_true_2 by reflexivity.
    eexists _, []. split; [reflexivity|]. simpl. repeat split.
  - case_bool_decide.
    + eexists _, []. split; [reflexivity|]. simpl. repeat split.
    + eexists _, [_]. split; [reflexivity|]. simpl.
      rewrite <- app_assoc. repeat split.
Qed.

End SwitchToOllama.

(** X8. Putting the provider select on "ollama" always starts a request:
    when the drawer comes to rest the loading flag is on, the error is
    cleared, and the first request added to those in flight has captured the
    model that was selected before the switch. *)
Theorem switch_to_ollama_starts_request
    (fuel : nat) (w : World) :
  selectedProvider (ui w) <> Some "ollama" ->
  selection_ok (ui w) ->
  3 <= fuel ->
  exists w' later,
    step fuel (SelectProvider "ollama") w = Settled w'
    /\ selectedProvider (ui w') = Some "ollama"
    /\ isLoadingOllamaModels (ui w') = true
    /\ ollamaError (ui w') = None
    /\ inflight w'
       = inflight w
         ++ {| captured_selectedModel := selectedModel (ui w);
               captured_selectedAgent := selectedAgent (ui w);
               captured_agents := agents (ui w) |} :: later.
Proof.
  intros Hne Hok Hfuel.
  destruct (switch_to_ollama fuel w Hne Hok Hfuel)
    as (w' & later & H1 & _ & H2 & H3 & H4 & H5).
  exists w', later. repeat split; assumption.
Qed.

(** ** [SettingInput] *)

Import Inputs.

Section Clamp.

Lemma within_bounds_sanitizeNumber config v :
  numeric_default_in_bounds config = true -> isNaN v = false ->
  isNaN (sanitizeNumber config v) = false
  /\ within_bounds config (sanitizeNumber config v) = true.
Proof.
  unfold numeric_default_in_bounds, within_bounds, sanitizeNumber.
  intros Hinv Hv. destruct (cfg_default config) as [d|]; [|discriminate].
  apply andb_true_iff in Hinv as [Hd Hinv].
  apply andb_true_iff in Hinv as [Hlo Hhi].
  destruct (cfg_min config) as [lo|], (cfg_max config) as [hi|].
  - pose proof (number_le_trans _ _ _ Hlo Hhi) as Hle.
    destruct (Math_clamp_within v lo hi Hv Hle) as [H1 H2].
    rewrite H1, H2. split; [|reflexivity].
    apply number_le_spec in H1 as (_ & H1 & _). exact H1.
  - apply number_le_spec in Hlo as (Hlo & _ & _).
    rewrite isNaN_Math_max, Hv, Hlo. split; [reflexivity|].
    rewrite andb_true_r. apply number_le_spec.
    rewrite isNaN_Math_max, Hv, Hlo. repeat split.
    unfold Math_max. rewrite Hv, Hlo. simpl.
    destruct (number_lt v lo) eqn:E; [apply number_lt_irrefl | exact E].
  - apply number_le_spec in Hhi as (_ & Hhi & _).
    rewrite isNaN_Math_min, Hv, Hhi. split; [reflexivity|]. simpl.
    apply number_le_spec.
    rewrite isNaN_Math_min, Hv, Hhi. repeat split.
    unfold Math_min. rewrite Hv, Hhi. simpl.
    destruct (number_lt hi v) eqn:E; [apply number_lt_irrefl | exact E].
  - now split.
Qed.

Lemma emitted_within_bounds config ev v :
  is_numeric config = true ->
  numeric_default_in_bounds config = true ->
  (forall newValue, ev = SliderValueChange newValue -> isNaN newValue = false) ->
  emitted config ev = Some v ->
  exists n, v = VNum n /\ isNaN n = false /\ within_bounds config n = true.
Proof.
  intros Hnum Hinv Hslider. unfold emitted, is_numeric in *.
  destruct (cfg_type config); try discriminate;
    destruct ev as [x|x|x|t]; try discriminate.
  - destruct (isNaN x) eqn:Hx; [discriminate|]. simpl. intros [= <-].
    eexists. split; [reflexivity|]. now apply within_bounds_sanitizeNumber.
  - destruct (isNaN x) eqn:Hx; simpl; intros [= <-].
    + unfold numeric_default_in_bounds in Hinv.
      destruct (cfg_default config) as [d|]; [|discriminate].
      apply andb_true_iff in Hinv as [Hd Hinv]. apply negb_true_iff in Hd.
      eauto.
    + eexists. split; [reflexivity|]. now apply within_bounds_sanitizeNumber.
  - intros [= <-]. eexists. split; [reflexivity|].
    apply within_bounds_sanitizeNumber; eauto.
Qed.

End Clamp.


Section Label.

Lemma split_not_nil sep s : split sep s <> [].
Proof.
  destruct s as [|c rest]; simpl; [discriminate|].
  destruct (Ascii.eqb c sep); [discriminate|].
  destruct (split sep rest); discriminate.
Qed.

Lemma join_String sep c word words :
  join sep (String c word :: words) = String c (join sep (word :: words)).
Proof. destruct words; reflexivity. Qed.

(** The words after the first are capitalised; the first one is, or is
    not, according to [start]. *)
Lemma label_relabel s :
  label s = relabel true s
  /\ match split underscore s with
     | word :: words =>
         join " " (word :: map (fun word => toUpperCase (charAt0 word) +:+ slice1 word) words)
         = relabel false s
     | [] => True
     end.
Proof.
  unfold label. induction s as [|c rest [IH1 IH2]]; [split; reflexivity|].
  cbn [split relabel].
  pose proof (split_not_nil underscore rest) as Hne.
  destruct (Ascii.eqb c underscore).
  - destruct (split underscore rest) as [|word words]; [done|].
    cbn [map] in *. split.
    + rewrite <- IH1. reflexivity.
    + rewrite <- IH1. reflexivity.
  - destruct (split underscore rest) as [|word words]; [done|].
    cbn [map] in *. split.
    + rewrite <- IH2. apply join_String.
    + rewrite <- IH2. apply join_String.
Qed.

Lemma get_relabel s : forall (start : bool) i,
  String.get i (relabel start s)
  = match String.get i s with
    | None => None
    | Some c =>
        Some (if Ascii.eqb c underscore then Ascii.ascii_of_nat 32
              else if (match i with O => start | S _ => starts_word i s end)
                   then toUpperCase_char c else c)
    end.
Proof.
  induction s as [|c rest IH]; intros start i; [reflexivity|].
  cbn [relabel]. destruct i as [|i].
  - simpl. now destruct (Ascii.eqb c underscore).
  - destruct (Ascii.eqb c underscore) eqn:Hc; cbn [String.get]; rewrite IH.
    + destruct (String.get i rest) as [d|] eqn:Hd; [|reflexivity].
      destruct i as [|i]; [simpl; now rewrite Hc|]. reflexivity.
    + destruct (String.get i rest) as [d|] eqn:Hd; [|reflexivity].
      destruct i as [|i]; [simpl; now rewrite Hc|]. reflexivity.
Qed.

End Label.

(** X10. The label of a setting key (of ASCII characters) has the length
    of the key; under each underscore of the key it has a space, under each
    character that starts a word (the first one, and each one after an
    underscore) that character in upper case, and every other character
    unchanged. *)
Theorem label_by_position (settingKey : string) :
  is_ascii settingKey = true ->
  String.length (label settingKey) = String.length settingKey
  /\ forall i,
       String.get i (label settingKey)
       = match String.get i settingKey with
         | None => None
         | Some c =>
             Some (if Ascii.eqb c underscore then Ascii.ascii_of_nat 32
                   else if starts_word i settingKey then toUpperCase_char c
                   else c)
         end.
Proof.
  intros _. destruct (label_relabel settingKey) as [-> _]. split.
  - generalize true. induction settingKey as [|c rest IH]; intros b; [reflexivity|].
    simpl. destruct (Ascii.eqb c underscore); simpl; now rewrite IH.
  - intros i. rewrite get_relabel. now destruct i.
Qed.

(** ** The numeric settings stay within their bounds *)

Section Bounds.

Lemma ollamaEffect_keeps_mappings s : Forall (keeps mappings) (ollamaEffect s).1.
Proof. unfold ollamaEffect. case_bool_decide; simpl; repeat constructor. Qed.

Lemma providerEffect_keeps_mappings s us :
  providerEffect s = Some us -> Forall (keeps mappings) us.
Proof.
  intros [-> | [m ->]]%providerEffect_updates; repeat constructor.
Qed.

(** The agent effect does nothing (no catalog, no agent), or puts both
    mappings on the defaults of the selected agent. *)
Lemma agentEffect_mappings s us :
  agentEffect s = Some us ->
  (us = [] /\ (agents s = None \/ JS.truthy (selectedAgent s) = false))
  \/ exists ags a agent,
       agents s = Some ags /\ selectedAgent s = Some a /\ ags !! a = Some agent
       /\ forall t, mappings (apply_updates us t) = defaults_of agent.
Proof.
  unfold agentEffect. intros H.
  destruct (agents s) as [ags|]; [|simplify_eq; left; eauto].
  destruct (selectedAgent s) as [a|]; [|simplify_eq; left; eauto].
  destruct (JS.truthy (Some a)) eqn:Ht; [|simplify_eq; left; eauto].
  destruct (ags !! a) as [agent|] eqn:Hagent; [|discriminate]. simpl in H.
  destruct (head (supported_models agent)); [|discriminate]. simpl in H.
  simplify_eq. right. exists ags, a, agent.
  split; [reflexivity|]. split; [reflexivity|]. split; [assumption|].
  intros t. reflexivity.
Qed.

Lemma run_effects_parts prev cur us started :
  run_effects prev cur = Some (us, started) ->
  exists us1 us2 us3,
    us = us1 ++ us2 ++ us3
    /\ (us1 = [] \/ us1 = (ollamaEffect cur).1)
    /\ ((us2 = [] /\ agent_deps prev = agent_deps cur)
        \/ (agent_deps prev <> agent_deps cur
            /\ agentEffect cur = Some us2))
    /\ (us3 = [] \/ providerEffect cur = Some us3).
Proof.
  unfold run_effects. intros H.
  destruct (if bool_decide (ollama_deps prev = ollama_deps cur)
            then ([], []) else ollamaEffect cur) as [us1 st] eqn:E1.
  destruct (if bool_decide (agent_deps prev = agent_deps cur)
            then Some [] else agentEffect cur) as [us2|] eqn:E2; [|discriminate].
  destruct (if bool_decide (provider_deps prev = provider_deps cur)
            then Some [] else providerEffect cur) as [us3|] eqn:E3; [|discriminate].
  simpl in H. injection H as <- <-. exists us1, us2, us3.
  split; [reflexivity|]. repeat split.
  - destruct (bool_decide (ollama_deps prev = ollama_deps cur)).
    + injection E1 as <- <-. now left.
    + right. now rewrite E1.
  - destruct (bool_decide (agent_deps prev = agent_deps cur)) eqn:Ea.
    + injection E2 as <-. apply bool_decide_eq_true_1 in Ea. now left.
    + apply bool_decide_eq_false_1 in Ea. now right.
  - destruct (bool_decide (provider_deps prev = provider_deps cur)).
    + injection E3 as <-. now left.
    + now right.
Qed.

(** With the agent and the catalog at rest, the loop leaves both mappings
    alone. *)
Lemma settle_keeps_mappings n : forall prev cur net w',
  agent_deps prev = agent_deps cur ->
  settle n prev cur net = Settled w' ->
  mappings (ui w') = mappings cur /\ agent_deps (ui w') = agent_deps cur.
Proof.
  induction n as [|n IH]; intros prev cur net w' Ha; [discriminate|].
  rewrite settle_S. case_bool_decide; [intros [= <-]; now split|].
  destruct (run_effects prev cur) as [[us started]|] eqn:E; [|discriminate].
  intros Hw'. apply run_effects_agent_deps in E as Ha'.
  apply IH in Hw' as [Hm Ha'']; [|now symmetry].
  split; [|congruence]. rewrite Hm.
  apply run_effects_parts in E as (us1 & us2 & us3 & -> & H1 & H2 & H3).
  destruct H2 as [[-> _] | [H2 _]]; [|contradiction].
  apply apply_updates_keeps. rewrite !Forall_app. repeat split.
  - destruct H1 as [-> | ->]; [constructor | apply ollamaEffect_keeps_mappings].
  - constructor.
  - destruct H3 as [-> | H3]; [constructor | eauto using providerEffect_keeps_mappings].
Qed.

(** The loop from any render: the mappings are left alone or put on the
    defaults of the selected agent. *)
Lemma settle_mappings n prev cur net w' :
  settle n prev cur net = Settled w' ->
  agent_deps (ui w') = agent_deps cur
  /\ ((mappings (ui w') = mappings cur
       /\ (agent_deps prev = agent_deps cur \/ agents cur = None
           \/ JS.truthy (selectedAgent cur) = false))
      \/ exists ags a agent,
           agents cur = Some ags /\ selectedAgent cur = Some a
           /\ ags !! a = Some agent
           /\ mappings (ui w') = defaults_of agent).
Proof.
  destruct n as [|n]; [discriminate|].
  rewrite settle_S. case_bool_decide as Hq.
  { intros [= <-]. split; [reflexivity|]. left. split; [reflexivity|].
    left. unfold ollama_deps, agent_deps in *. congruence. }
  destruct (run_effects prev cur) as [[us started]|] eqn:E; [|discriminate].
  intros Hw'. apply run_effects_agent_deps in E as Ha'.
  apply settle_keeps_mappings in Hw' as [Hm Ha'']; [|now symmetry].
  split; [congruence|]. rewrite Hm.
  apply run_effects_parts in E as (us1 & us2 & us3 & -> & H1 & H2 & H3).
  assert (K1 : Forall (keeps mappings) us1)
    by (destruct H1 as [-> | ->]; [constructor | apply ollamaEffect_keeps_mappings]).
  assert (K3 : Forall (keeps mappings) us3)
    by (destruct H3 as [-> | H3]; [constructor | eauto using providerEffect_keeps_mappings]).
  destruct H2 as [[-> Hsame] | [Hne H2]].
  - left. split; [|now left].
    apply apply_updates_keeps. rewrite !Forall_app. repeat split; auto.
  - apply agentEffect_mappings in H2 as [[-> Hcase] | (ags & a & agent & ? & ? & ? & Hd)].
    + left. split; [|now right].
      apply apply_updates_keeps. rewrite !Forall_app. repeat split; auto.
    + right. exists ags, a, agent. repeat split; try assumption.
      rewrite !apply_updates_app, (apply_updates_keeps mappings us3) by exact K3.
      apply Hd.
Qed.

End Bounds.

Section BoundsInvariant.

Lemma settings_in_bounds_ext s s' :
  agent_deps s = agent_deps s' -> mappings s = mappings s' ->
  settings_in_bounds s -> settings_in_bounds s'.
Proof.
  unfold agent_deps, mappings, settings_in_bounds.
  intros [= Ha Hags] [= Hm Hg] H ags a agent ? ? ?.
  rewrite <- Hm, <- Hg. apply (H ags a agent); congruence.
Qed.

Lemma defaults_in_bounds ags a agent ty :
  catalog_valid ags -> ags !! a = Some agent ->
  in_bounds_for (schema_of ty agent)
                (Some (computeDefaults (schema_of ty agent))).
Proof.
  intros Hvalid Hagent mm key config v [= <-] Hcfg Hnum.
  rewrite computeDefaults_lookup, Hcfg.
  destruct (String.eqb key "__proto__"); [discriminate|]. intros [= <-].
  pose proof (Hvalid a agent ty key config Hagent Hcfg Hnum) as Hinv.
  unfold numeric_default_in_bounds in Hinv.
  destruct (cfg_default config) as [d|]; [|discriminate].
  apply andb_true_iff in Hinv as [Hd Hinv]. apply negb_true_iff in Hd. eauto.
Qed.

Lemma in_bounds_for_insert schema m key config v :
  schema !! key = Some config ->
  (is_numeric config = true ->
   exists n, v = VNum n /\ isNaN n = false /\ within_bounds config n = true) ->
  in_bounds_for schema m ->
  in_bounds_for schema (Some (<[key := v]> (default ∅ m))).
Proof.
  intros Hcfg Hv Hm mm key' config' v' [= <-] Hcfg' Hnum.
  destruct (decide (key = key')) as [<- | Hne].
  - rewrite lookup_insert_eq. intros [= <-].
    assert (config' = config) by congruence. subst config'. now apply Hv.
  - rewrite lookup_insert_ne by assumption.
    destruct m as [mm|]; simpl; [|now rewrite lookup_empty].
    intros Hlook. eapply Hm; eauto.
Qed.

(** A value reported by a control of the selected agent keeps the
    invariant. *)
Lemma handleSettingChange_in_bounds ty key v cev s :
  (forall ags, agents s = Some ags -> catalog_valid ags) ->
  (forall newValue, cev = SliderValueChange newValue -> isNaN newValue = false) ->
  controlEvent ty key cev s = Some (SettingChange ty key v) ->
  settings_in_bounds s ->
  settings_in_bounds (handleSettingChange ty key v s).
Proof.
  intros Hvalid Hcev Hev Hinv ags a agent Hags Ha Hagent.
  unfold controlEvent in Hev.
  assert (Hags' : agents s = Some ags) by (destruct ty; exact Hags).
  assert (Ha' : selectedAgent s = Some a) by (destruct ty; exact Ha).
  rewrite Hags', Ha' in Hev. simpl in Hev. rewrite Hagent in Hev. simpl in Hev.
  destruct (schema_of ty agent !! key) as [config|] eqn:Hcfg; [|discriminate].
  simpl in Hev.
  destruct (emitted config cev) as [v0|] eqn:Hem; [|discriminate].
  simpl in Hev. injection Hev as ->.
  destruct (Hinv ags a agent Hags' Ha' Hagent) as [Hm Hg].
  assert (Hv : is_numeric config = true ->
               exists n, v = VNum n /\ isNaN n = false
                         /\ within_bounds config n = true).
  { intros Hnum. eapply emitted_within_bounds; eauto.
    eapply (Hvalid ags Hags' a agent ty); eauto. }
  destruct ty; simpl in *; split; try assumption.
  - now apply (in_bounds_for_insert _ _ _ config).
  - now apply (in_bounds_for_insert _ _ _ config).
Qed.

End BoundsInvariant.

(** X11. Invariant of the drawer.  In a catalog whose numeric specs have
    their default within their bounds, with an agent of the catalog
    selected: if every numeric parameter value of the two mappings lies
    within the bounds of its spec (of the selected agent), it still does
    after any event, be it a control of the advanced section reporting a
    value, the agent, provider or model select, or a settling request. *)
Theorem numeric_settings_stay_within_bounds
    (fuel : nat) (ev : Event) (w : World) :
  selection_ok (ui w) ->
  (forall ags, agents (ui w) = Some ags -> catalog_valid ags) ->
  settings_in_bounds (ui w) ->
  user_event (ui w) ev ->
  4 <= fuel ->
  exists w', step fuel ev w = Settled w' /\ settings_in_bounds (ui w').
Proof.
  intros Hok Hvalid Hinv Hev Hfuel.
  destruct fuel as [|[|[|[|n]]]]; try lia.
  change (S (S (S (S n)))) with (4 + n). unfold step.
  destruct ev as [v|p|m|ty key v|i r].
  - (* the agent select *)
    destruct Hev as [Hv Hcat]. simpl event_updates. cbn [apply_updates foldl].
    set (cur := setSelectedAgent (Some v) (ui w)).
    assert (Hcur : selection_ok cur).
    { intros ags a Hags [= <-] _. now apply Hcat. }
    destruct (settle_safe n (ui w) cur (inflight w) Hcur) as (w' & Hw' & _).
    exists w'. split; [exact Hw'|].
    apply settle_mappings in Hw' as [Ha [[Hm Hcase] | (ags & a & agent & Hags & Ha0 & Hagent & Hm)]].
    + destruct Hcase as [Hsame | [Hnone | Hfalsy]].
      * eapply (settings_in_bounds_ext (ui w)); [congruence | | exact Hinv].
        now rewrite Hm.
      * intros ags a agent Hags. unfold agent_deps in Ha. simpl in *. congruence.
      * apply truthy_Some in Hv. simpl in *. congruence.
    + intros ags' a' agent' Hags' Ha' Hagent'.
      unfold agent_deps in Ha. simpl in Ha, Hags, Ha0.
      assert (ags' = ags) by congruence. assert (a' = a) by congruence.
      subst ags' a'. assert (agent' = agent) by congruence. subst agent'.
      unfold mappings, defaults_of in Hm. injection Hm as -> ->.
      split.
      * apply (defaults_in_bounds ags a agent model); eauto.
      * apply (defaults_in_bounds ags a agent Settings.agent); eauto.
  - (* the provider select *)
    simpl event_updates. cbn [apply_updates foldl].
    destruct (settle_safe n (ui w) (setSelectedProvider (Some p) (ui w)) (inflight w))
      as (w' & Hw' & _); [exact Hok|].
    exists w'. split; [exact Hw'|].
    apply settle_keeps_mappings in Hw' as [Hm Ha]; [|reflexivity].
    eapply (settings_in_bounds_ext (ui w)); [now rewrite Ha | now rewrite Hm | exact Hinv].
  - (* the model select *)
    simpl event_updates. cbn [apply_updates foldl].
    destruct (settle_safe n (ui w) (setSelectedModel (Some m) (ui w)) (inflight w))
      as (w' & Hw' & _); [exact Hok|].
    exists w'. split; [exact Hw'|].
    apply settle_keeps_mappings in Hw' as [Hm Ha]; [|reflexivity].
    eapply (settings_in_bounds_ext (ui w)); [now rewrite Ha | now rewrite Hm | exact Hinv].
  - (* a control of the advanced section *)
    destruct Hev as (cev & Hcev & Hctl).
    simpl event_updates. cbn [apply_updates foldl].
    set (cur := handleSettingChange ty key v (ui w)).
    assert (Hdeps : agent_deps (ui w) = agent_deps cur) by now destruct ty.
    destruct (settle_safe n (ui w) cur (inflight w)) as (w' & Hw' & _);
      [eapply selection_ok_agent_deps; eauto|].
    exists w'. split; [exact Hw'|].
    apply settle_keeps_mappings in Hw' as [Hm Ha]; [|exact Hdeps].
    eapply (settings_in_bounds_ext cur); [now rewrite Ha | now rewrite Hm |].
    eapply handleSettingChange_in_bounds; eauto.
  - (* a settling request *)
    pose proof (event_updates_agent_deps (FetchSettles i r) w ltac:(discriminate)) as Hdeps.
    assert (Hmap : mappings (apply_updates (event_updates (FetchSettles i r) w).1 (ui w))
                   = mappings (ui w)).
    { simpl. destruct (inflight w !! i) as [f|]; [|reflexivity]. simpl.
      pose proof (fetchSettled_selection f r (ui w)) as (_ & Hms & Hgs & _).
      unfold mappings. now rewrite Hms, Hgs. }
    destruct (event_updates (FetchSettles i r) w) as [us net]. simpl in Hdeps, Hmap.
    destruct (settle_safe n (ui w) (apply_updates us (ui w)) net) as (w' & Hw' & _);
      [eapply selection_ok_agent_deps; [symmetry; exact Hdeps | exact Hok]|].
    exists w'. split; [exact Hw'|].
    apply settle_keeps_mappings in Hw' as [Hm Ha]; [|now symmetry].
    eapply (settings_in_bounds_ext (ui w)); [congruence | congruence | exact Hinv].
Qed.

(** ** The rewrites of next.config.js *)

Import Rewrites.

Section BaseUrl.

Lemma startsWith_append p rest : startsWith (p +:+ rest) p = true.
Proof. apply startsWith_iff. now exists rest. Qed.

(** The base URL always carries a scheme. *)
Lemma computeApiBaseUrl_scheme API_URL :
  startsWith (computeApiBaseUrl API_URL) "http://"
  || startsWith (computeApiBaseUrl API_URL) "https://" = true.
Proof.
  unfold computeApiBaseUrl. destruct API_URL as [apiUrl|]; [|reflexivity].
  destruct (negb (truthy (Some apiUrl)) || (String.length apiUrl =? 0)%nat);
    [reflexivity|].
  destruct (startsWith apiUrl "http://" || startsWith apiUrl "https://") eqn:E;
    [exact E|].
  now rewrite (startsWith_append "https://" apiUrl), orb_true_r.
Qed.

Lemma startsWith_nonempty s p :
  p <> "" -> startsWith s p = true -> s <> "".
Proof.
  intros Hp [rest ->]%startsWith_iff. destruct p; [congruence | discriminate].
Qed.

Lemma startsWith_append_r s p suffix :
  startsWith s p = true -> startsWith (s +:+ suffix) p = true.
Proof.
  rewrite !startsWith_iff. intros [rest ->]. exists (rest +:+ suffix).
  clear. induction p as [|c p IH]; [reflexivity|].
  rewrite !append_String. now rewrite IH.
Qed.

End BaseUrl.

(** X12. Whatever [API_URL] is, every rewrite sends its source to an
    absolute URL: the destination starts with "http://" or "https://", and
    it is the base URL followed by the source path. *)
Theorem rewrites_are_absolute (API_URL : option string) (r : Rewrite) :
  r ∈ rewrites API_URL ->
  destination r = computeApiBaseUrl API_URL +:+ source r
  /\ ((exists rest, destination r = "http://" +:+ rest)
      \/ (exists rest, destination r = "https://" +:+ rest)).
Proof.
  intros Hr.
  assert (Hd : destination r = computeApiBaseUrl API_URL +:+ source r).
  { unfold rewrites in Hr. rewrite !elem_of_cons in Hr.
    destruct Hr as [-> | [-> | [-> | Hr]]]; try reflexivity.
    now apply elem_of_nil in Hr. }
  split; [exact Hd|]. rewrite Hd, <- !startsWith_iff.
  destruct (orb_prop _ _ (computeApiBaseUrl_scheme API_URL)) as [H | H];
    [left | right]; now apply startsWith_append_r.
Qed.

(** X13. The base URL is a fixed point: feeding it back as [API_URL] gives
    the same base URL, so a value that already went through the function
    is never prefixed a second time. *)
Theorem computeApiBaseUrl_idempotent (API_URL : option string) :
  computeApiBaseUrl (Some (computeApiBaseUrl API_URL))
  = computeApiBaseUrl API_URL.
Proof.
  pose proof (computeApiBaseUrl_scheme API_URL) as Hs.
  set (base := computeApiBaseUrl API_URL) in *.
  assert (Hne : base <> "").
  { destruct (orb_prop _ _ Hs) as [H | H];
      eapply startsWith_nonempty; try exact H; discriminate. }
  unfold computeApiBaseUrl at 1.
  apply truthy_Some in Hne as Ht. rewrite Ht.
  assert (Hlen : (String.length base =? 0)%nat = false)
    by (destruct base; [congruence | reflexivity]).
  rewrite Hlen. simpl. now rewrite Hs.
Qed.

(** ** The provider API keys *)

Import ApiKeys.

(** X14. Saving a key for a provider stores it under that provider only:
    the settings handed to [updateSettings] hold the new key for the
    provider, every other provider's key and every other field as before,
    and the key input is emptied.  With these settings the block shows the
    masked placeholder and offers "Clear Key" (for a key and a provider that
    are not empty, the provider not "ollama"). *)
Theorem save_key_stores_for_that_provider_only
    (currentSettings : SurfSettings) (selectedProvider apiKey : string) :
  selectedProvider <> "" -> selectedProvider <> "ollama" -> apiKey <> "" ->
  exists settings',
    saveKeyClicked (Some currentSettings) selectedProvider apiKey
    = (FullSettings settings', "")
    /\ st_providerApiKeys settings' !! selectedProvider = Some apiKey
    /\ (forall other, other <> selectedProvider ->
          st_providerApiKeys settings' !! other
          = st_providerApiKeys currentSettings !! other)
    /\ with_providerApiKeys settings' (st_providerApiKeys currentSettings)
       = currentSettings
    /\ apiKeySection (Some selectedProvider) (Some settings') ""
       = Some {| clear_offered := true; placeholder := Masked;
                 save_offered := false |}.
Proof.
  intros Hp Ho Hk. eexists. split; [reflexivity|]. simpl.
  split; [apply lookup_insert_eq|].
  split; [intros other Hne; now apply lookup_insert_ne|].
  split; [now destruct currentSettings|].
  unfold apiKeySection, storedKey. simpl. rewrite lookup_insert_eq. simpl.
  destruct (String.eqb_spec selectedProvider ""); [contradiction|].
  destruct (String.eqb_spec selectedProvider "ollama"); [contradiction|].
  destruct (String.eqb_spec apiKey ""); [contradiction|]. reflexivity.
Qed.

(** X15. Clearing the key of a provider removes that provider's own key
    and nothing else, and clearing a key that was just saved for a provider
    that had none gives back the settings as they were.  After the clearing
    the block asks for a key again and offers no "Clear Key", unless the
    provider is named like a member of [Object.prototype] ([constructor],
    [toString], ...): the test then finds the inherited member, and the
    block keeps the masked placeholder and "Clear Key". *)
Theorem clear_key_removes_that_key_only
    (currentSettings : SurfSettings) (selectedProvider apiKey : string) :
  selectedProvider <> "" -> selectedProvider <> "ollama" ->
  let settings' := clearKeyClicked currentSettings selectedProvider in
  st_providerApiKeys settings' !! selectedProvider = None
  /\ (forall other, other <> selectedProvider ->
        st_providerApiKeys settings' !! other
        = st_providerApiKeys currentSettings !! other)
  /\ with_providerApiKeys settings' (st_providerApiKeys currentSettings)
     = currentSettings
  /\ (selectedProvider ∉ Object_prototype ->
      apiKeySection (Some selectedProvider) (Some settings') apiKey
      = Some {| clear_offered := false;
                placeholder := EnterKey selectedProvider;
                save_offered := truthy (Some apiKey) |})
  /\ (selectedProvider ∈ Object_prototype ->
      apiKeySection (Some selectedProvider) (Some settings') apiKey
      = Some {| clear_offered := true;
                placeholder := Masked;
                save_offered := truthy (Some apiKey) |})
  /\ (st_providerApiKeys currentSettings !! selectedProvider = None ->
      forall settings'',
        (saveKeyClicked (Some currentSettings) selectedProvider apiKey).1
        = FullSettings settings'' ->
        clearKeyClicked settings'' selectedProvider = currentSettings).
Proof.
  intros Hp Ho settings'. subst settings'. unfold clearKeyClicked. simpl.
  split; [apply lookup_delete_eq|].
  split; [intros other Hne; now apply lookup_delete_ne|].
  split; [now destruct currentSettings|].
  assert (Hview : forall b, inherited selectedProvider = b ->
            apiKeySection (Some selectedProvider)
              (Some (with_providerApiKeys currentSettings
                       (delete selectedProvider
                          (st_providerApiKeys currentSettings)))) apiKey
            = Some {| clear_offered := b;
                      placeholder := if b then Masked
                                     else EnterKey selectedProvider;
                      save_offered := truthy (Some apiKey) |}).
  { intros b Hb. unfold apiKeySection, storedKey. simpl.
    rewrite lookup_delete_eq, Hb. simpl.
    destruct (String.eqb_spec selectedProvider ""); [contradiction|].
    destruct (String.eqb_spec selectedProvider "ollama"); [contradiction|].
    now destruct b. }
  split; [|split].
  - intros Hn. apply (Hview false). now apply bool_decide_eq_false_2.
  - intros Hi. apply (Hview true). now apply bool_decide_eq_true_2.
  - intros Hnone settings'' [= <-]. unfold with_providerApiKeys. simpl.
    rewrite delete_insert_eq, delete_id by assumption.
    now destruct currentSettings.
Qed.

(** ** The cascade from any render in which the agent or the catalog changed *)

Section AgentCascade.

Lemma settle_agent_changed n prev cur net ags B agentB entry0 model0 :
  agent_deps prev <> agent_deps cur ->
  agents cur = Some ags -> selectedAgent cur = Some B -> B <> "" ->
  ags !! B = Some agentB ->
  head (supported_models agentB) = Some entry0 ->
  head (models entry0) = Some model0 ->
  provider entry0 <> "" ->
  exists w',
    settle (4 + n) prev cur net = Settled w'
    /\ agents (ui w') = Some ags
    /\ selectedAgent (ui w') = Some B
    /\ selectedProvider (ui w') = Some (provider entry0)
    /\ selectedModel (ui w') = Some model0
    /\ modelSettings (ui w') = Some (computeDefaults (model_settings agentB))
    /\ agentSettings (ui w') = Some (computeDefaults (agent_settings agentB)).
Proof.
  intros Hne Hags HB HBt Hcfg Hhd Hm Hpt. cbn [Nat.add].
  rewrite settle_S.
  rewrite bool_decide_eq_false_2
    by (unfold ollama_deps; unfold agent_deps in Hne; congruence).
  unfold run_effects.
  rewrite (bool_decide_eq_false_2 (ollama_deps _ = _))
    by (unfold ollama_deps; unfold agent_deps in Hne; congruence).
  rewrite (bool_decide_eq_false_2 (agent_deps _ = _)) by assumption.
  rewrite (bool_decide_eq_false_2 (provider_deps _ = _))
    by (unfold provider_deps; unfold agent_deps in Hne; congruence).
  pose proof (ollamaEffect_same_selection cur cur) as Hs.
  destruct (ollamaEffect cur) as [us1 started]. simpl in Hs.
  assert (Hs1 : agents (apply_updates us1 cur) = Some ags)
    by (destruct Hs as (H & _); now rewrite <- H).
  assert (Hs2 : selectedAgent (apply_updates us1 cur) = Some B)
    by (destruct Hs as (_ & H & _); now rewrite <- H).
  assert (Hs3 : selectedProvider (apply_updates us1 cur) = selectedProvider cur)
    by (destruct Hs as (_ & _ & H & _); now rewrite <- H).
  clear Hs.
  rewrite (agentEffect_found cur ags B agentB entry0) by assumption.
  rewrite Hm. simpl.
  assert (Hfind : find (fun m => String.eqb (provider m) (provider entry0))
                       (supported_models agentB) = Some entry0)
    by (apply find_head; [assumption | apply String.eqb_refl]).
  assert (Heff : forall s, agents s = Some ags -> selectedAgent s = Some B ->
                 selectedProvider s = Some (provider entry0) ->
                 providerEffect s = Some [setSelectedModel (Some model0)]).
  { intros s ? ? ?.
    rewrite (providerEffect_found s ags B agentB (provider entry0) entry0)
      by assumption.
    destruct (models entry0); [discriminate | simpl in Hm; congruence]. }
  destruct (decide (selectedProvider cur = Some (provider entry0))) as [Hsame|Hdiff].
  - rewrite (Heff cur) by assumption. simpl.
    rewrite !apply_updates_app. simpl.
    set (next := setSelectedModel _ _).
    destruct (settle_provider_stable (S n) cur next (net ++ started))
      as (w' & -> & Hw').
    { unfold provider_deps. subst next. simpl. rewrite Hs1, Hs2. congruence. }
    exists w'. split; [reflexivity|].
    destruct Hw' as (Hg' & Ha' & Hp' & Hm' & Hms' & Has' & _).
    subst next. simpl in *. repeat split; congruence.
  - destruct (providerEffect_shape cur ags B agentB) as [-> | [m' ->]];
      try assumption; simpl; rewrite !apply_updates_app; simpl.
    all: match goal with |- context [settle _ _ ?s _] => set (next := s) end.
    all: destruct (settle_provider_changed n cur next (net ++ started) model0)
        as (w' & -> & Hw');
      [ unfold agent_deps; subst next; simpl; rewrite Hs1, Hs2; congruence
      | subst next; simpl; congruence
      | apply Heff; subst next; simpl; congruence
      | ].
    all: exists w'; split; [reflexivity|];
      destruct Hw' as (Hg' & Ha' & Hp' & Hm' & Hms' & Has' & _);
      subst next; simpl in *; repeat split; congruence.
Qed.

End AgentCascade.

(** ** The mount effect *)

Import Mount.

Section MountFacts.

Lemma mounted_first_use :
  mounted None = {| ui := initialState None; inflight := [] |}.
Proof. reflexivity. Qed.

Lemma agents_mounted currentSettings : agents (ui (mounted currentSettings)) = None.
Proof.
  unfold mounted. cbn [ui].
  pose proof (ollamaEffect_same_selection (initialState currentSettings)
                (initialState currentSettings)) as (H & _).
  now rewrite <- H.
Qed.

Lemma selectedAgent_mounted currentSettings :
  selectedAgent (ui (mounted currentSettings))
  = st_selectedAgent <$> currentSettings.
Proof.
  unfold mounted. cbn [ui].
  pose proof (ollamaEffect_same_selection (initialState currentSettings)
                (initialState currentSettings)) as (_ & H & _).
  now rewrite <- H.
Qed.

End MountFacts.

(** X16. First use: with no persisted settings, when the catalog arrives
    the mount effect writes to the settings store the first agent of the
    catalog with the provider and the first model of its first
    supported-model entry, the defaults of its two schemas and no provider
    key, and the drawer comes to rest on exactly that selection.  The
    defaults of a schema: each of its keys with the default of its spec,
    except a parameter named [__proto__], which the reduce does not
    store. *)
Theorem first_use_selects_first_agent
    (fuel : nat) (key : string) (cfg : AgentConfig)
    (others : list (string * AgentConfig))
    (entry0 : SupportedModels) (model0 : string) :
  key <> "" ->
  head (supported_models cfg) = Some entry0 ->
  head (models entry0) = Some model0 ->
  provider entry0 <> "" ->
  4 <= fuel ->
  exists w',
    catalogSettles fuel None (Some ((key, cfg) :: others)) (mounted None)
    = (Settled w',
       Some {| first_selectedAgent := key;
               first_selectedProvider := provider entry0;
               first_selectedModel := Some model0;
               first_modelSettings :=
                 cfg_default <$> delete "__proto__" (model_settings cfg);
               first_agentSettings :=
                 cfg_default <$> delete "__proto__" (agent_settings cfg);
               first_providerApiKeys := ∅ |})
    /\ agents (ui w') = Some (list_to_map ((key, cfg) :: others))
    /\ selectedAgent (ui w') = Some key
    /\ selectedProvider (ui w') = Some (provider entry0)
    /\ selectedModel (ui w') = Some model0
    /\ modelSettings (ui w')
       = Some (cfg_default <$> delete "__proto__" (model_settings cfg))
    /\ agentSettings (ui w')
       = Some (cfg_default <$> delete "__proto__" (agent_settings cfg)).
Proof.
  intros Hk Hhd Hm Hp Hfuel. rewrite <- !computeDefaults_closed.
  destruct fuel as [|[|[|[|n]]]]; try lia.
  change (S (S (S (S n)))) with (4 + n).
  unfold catalogSettles, fetchAgentsSettled.
  cbn [fmap list_fmap head fst].
  assert (Hlook : (list_to_map ((key, cfg) :: others) : AvailableAgents) !! key
                  = Some cfg) by apply lookup_insert_eq.
  rewrite Hlook, Hhd, Hm. rewrite mounted_first_use. cbn [ui inflight].
  edestruct (settle_agent_changed n (initialState None)) as (w' & -> & H);
    [ | | | exact Hk | exact Hlook | exact Hhd | exact Hm | exact Hp | ].
  - unfold agent_deps. simpl. congruence.
  - reflexivity.
  - reflexivity.
  - exists w'. split; [reflexivity | exact H].
Qed.

(** X17. An empty catalog on first use: the catalog is stored, nothing is
    selected, nothing is written to the settings store and no effect
    throws; the drawer stays without an agent. *)
Theorem empty_catalog_selects_nothing (fuel : nat) :
  2 <= fuel ->
  exists w',
    catalogSettles fuel None (Some []) (mounted None) = (Settled w', None)
    /\ agents (ui w') = Some ∅
    /\ selectedAgent (ui w') = None
    /\ selectedProvider (ui w') = None
    /\ selectedModel (ui w') = None
    /\ inflight w' = [].
Proof.
  intros Hfuel. destruct fuel as [|[|n]]; try lia.
  unfold catalogSettles, fetchAgentsSettled. simpl fst. simpl snd.
  cbn [fmap list_fmap head]. rewrite mounted_first_use. cbn [ui inflight].
  cbn [apply_updates foldl]. rewrite settle_S.
  rewrite bool_decide_eq_false_2 by (unfold ollama_deps; simpl; congruence).
  eexists. split; [reflexivity|]. repeat split.
Qed.

(** X18. Persisted settings whose agent the arriving catalog does not have
    (the agent was removed or renamed): the agent effect throws at the next
    render. *)
Theorem persisted_agent_missing_from_catalog_throws
    (fuel : nat) (currentSettings : SurfSettings)
    (entries : list (string * AgentConfig)) :
  st_selectedAgent currentSettings <> "" ->
  (list_to_map entries : AvailableAgents) !! st_selectedAgent currentSettings
  = None ->
  catalogSettles (S fuel) (Some currentSettings) (Some entries)
                 (mounted (Some currentSettings))
  = (Crashed, None).
Proof.
  intros Ht Hnone. unfold catalogSettles, fetchAgentsSettled.
  cbn [apply_updates foldl]. f_equal. rewrite settle_S.
  pose proof (agents_mounted (Some currentSettings)) as Hags.
  pose proof (selectedAgent_mounted (Some currentSettings)) as Ha.
  revert Hags Ha.
  generalize (mounted (Some currentSettings)). intros w Hags Ha. simpl in Ha.
  rewrite bool_decide_eq_false_2 by (unfold ollama_deps; simpl; congruence).
  unfold run_effects.
  rewrite (bool_decide_eq_false_2 (agent_deps _ = _))
    by (unfold agent_deps; simpl; congruence).
  destruct (if bool_decide _ then _ else ollamaEffect _) as [us1 st].
  assert (Heff : agentEffect (setAgents (Some (list_to_map entries)) (ui w)) = None).
  { unfold agentEffect. simpl. rewrite Ha.
    apply truthy_Some in Ht. simpl in Ht. rewrite Ht. now rewrite Hnone. }
  now rewrite Heff.
Qed.

(** X19. Persisted settings are not kept when the catalog arrives: the
    agent effect runs because the catalog changed, and puts the provider,
    the model and both mappings on the defaults of the persisted agent
    (each key of its schema with the default of its spec, a parameter named
    [__proto__] left out), whatever provider, model and parameter values
    were persisted.  Nothing is written to the settings store. *)
Theorem catalog_arrival_overwrites_persisted_selection
    (fuel : nat) (currentSettings : SurfSettings)
    (entries : list (string * AgentConfig)) (cfg : AgentConfig)
    (entry0 : SupportedModels) (model0 : string) :
  st_selectedAgent currentSettings <> "" ->
  (list_to_map entries : AvailableAgents) !! st_selectedAgent currentSettings
  = Some cfg ->
  head (supported_models cfg) = Some entry0 ->
  head (models entry0) = Some model0 ->
  provider entry0 <> "" ->
  4 <= fuel ->
  exists w',
    catalogSettles fuel (Some currentSettings) (Some entries)
                   (mounted (Some currentSettings))
    = (Settled w', None)
    /\ selectedAgent (ui w') = Some (st_selectedAgent currentSettings)
    /\ selectedProvider (ui w') = Some (provider entry0)
    /\ selectedModel (ui w') = Some model0
    /\ modelSettings (ui w')
       = Some (cfg_default <$> delete "__proto__" (model_settings cfg))
    /\ agentSettings (ui w')
       = Some (cfg_default <$> delete "__proto__" (agent_settings cfg)).
Proof.
  intros Ht Hcfg Hhd Hm Hp Hfuel. rewrite <- !computeDefaults_closed.
  destruct fuel as [|[|[|[|n]]]]; try lia.
  change (S (S (S (S n)))) with (4 + n).
  unfold catalogSettles, fetchAgentsSettled. cbn [apply_updates foldl].
  pose proof (agents_mounted (Some currentSettings)) as Hags.
  pose proof (selectedAgent_mounted (Some currentSettings)) as Ha.
  revert Hags Ha.
  generalize (mounted (Some currentSettings)). intros w Hags Ha. simpl in Ha.
  edestruct (settle_agent_changed n (ui w)
               (setAgents (Some (list_to_map entries)) (ui w)))
    as (w' & -> & H);
    [ | | | exact Ht | exact Hcfg | exact Hhd | exact Hm | exact Hp | ].
  - unfold agent_deps. simpl. congruence.
  - reflexivity.
  - exact Ha.
  - exists w'. split; [reflexivity|]. tauto.
Qed.

(** ** The items of the model select *)

Import Render.

Section Items.

Lemma selectable_enabled {A} (value label : A -> string) (l : list A) :
  selectable (map (fun m => {| item_value := value m; item_label := label m;
                               item_disabled := false |}) l)
  = map value l.
Proof.
  unfold selectable. induction l as [|x l IH]; [reflexivity|].
  cbn [map]. rewrite filter_cons_True by reflexivity. cbn [map item_value].
  now f_equal.
Qed.

Lemma modelItems_same_selection s s' :
  same_selection s s' ->
  selectedProvider s <> Some "ollama" ->
  modelItems s' = modelItems s.
Proof.
  intros (Hg & Ha & Hp & _) Ho. unfold modelItems.
  rewrite <- Hg, <- Ha, <- Hp.
  now rewrite (bool_decide_eq_false_2 _ Ho).
Qed.

End Items.

(** X20. After the provider select is put on a hosted provider (not
    "ollama") of the selected agent, the items of the model select are the
    models of that provider's entry, all of them selectable, and the model
    the provider effect selected is one of them. *)
Theorem hosted_provider_selects_an_offered_model
    (fuel : nat) (w : World) (ags : AvailableAgents) (a : string)
    (cfg : AgentConfig) (p : string) (entry : SupportedModels)
    (model0 : string) :
  agents (ui w) = Some ags ->
  selectedAgent (ui w) = Some a -> a <> "" ->
  ags !! a = Some cfg ->
  find (fun m => String.eqb (provider m) p) (supported_models cfg) = Some entry ->
  head (models entry) = Some model0 ->
  p <> "" -> p <> "ollama" ->
  selectedProvider (ui w) <> Some p ->
  3 <= fuel ->
  exists w' items,
    step fuel (SelectProvider p) w = Settled w'
    /\ modelItems (ui w') = Some items
    /\ selectable items = models entry
    /\ length items = length (models entry)
    /\ selectedModel (ui w') = Some model0
    /\ model0 ∈ selectable items.
Proof.
  intros Hags Ha Hat Hcfg Hfind Hm Hpt Ho Hp Hfuel.
  destruct fuel as [|[|[|n]]]; try lia.
  unfold step. simpl event_updates. cbn [apply_updates foldl].
  set (cur := setSelectedProvider (Some p) (ui w)).
  destruct (settle_provider_changed n (ui w) cur (inflight w) model0)
    as (w' & Hw' & Hs); [reflexivity | exact Hp | |].
  { rewrite (providerEffect_found cur ags a cfg p entry)
      by (try assumption; reflexivity).
    destruct (models entry); [discriminate | simpl in Hm; congruence]. }
  exists w'.
  exists (map (fun m => {| item_value := m; item_label := m;
                           item_disabled := false |}) (models entry)).
  split; [exact Hw'|].
  assert (Hitems : modelItems (ui w')
                   = Some (map (fun m => {| item_value := m; item_label := m;
                                            item_disabled := false |})
                               (models entry))).
  { rewrite (modelItems_same_selection _ _ Hs) by (simpl; congruence).
    unfold modelItems. simpl. rewrite Hags, Ha.
    apply truthy_Some in Hat. simpl in Hat. rewrite Hat, Hcfg. simpl.
    rewrite bool_decide_eq_false_2 by congruence.
    unfold staticModels. now rewrite Hfind. }
  split; [exact Hitems|].
  rewrite (selectable_enabled (fun m => m) (fun m => m)), map_id.
  split; [reflexivity|]. split; [apply length_map|].
  destruct Hs as (_ & _ & _ & Hsel & _). simpl in Hsel.
  split; [congruence|].
  destruct (models entry) as [|m0 ms]; [discriminate|].
  simpl in Hm. injection Hm as ->. apply list_elem_of_here.
Qed.

(** X21. Right after the provider select is put on "ollama", when the
    drawer has come to rest, the model select holds exactly one item, the
    disabled item "Loading Ollama models...": no model can be picked, and
    at least one request is in flight. *)
Theorem only_loading_item_after_switch_to_ollama
    (fuel : nat) (w : World) (ags : AvailableAgents) (a : string)
    (cfg : AgentConfig) :
  agents (ui w) = Some ags ->
  selectedAgent (ui w) = Some a -> a <> "" ->
  ags !! a = Some cfg -> supported_models cfg <> [] ->
  selectedProvider (ui w) <> Some "ollama" ->
  3 <= fuel ->
  exists w',
    step fuel (SelectProvider "ollama") w = Settled w'
    /\ modelItems (ui w')
       = Some [ {| item_value := "loading";
                   item_label := "Loading Ollama models...";
                   item_disabled := true |} ]
    /\ inflight w' <> [].
Proof.
  intros Hags Ha Hat Hcfg Hsm Hne Hfuel.
  assert (Hok : selection_ok (ui w)).
  { intros ags' a' Hags' Ha' _. exists cfg. split; [congruence | exact Hsm]. }
  destruct (switch_to_ollama fuel w Hne Hok Hfuel)
    as (w' & later & Hstep & Hdeps & Hp & Hl & _ & Hin).
  exists w'. split; [exact Hstep|].
  unfold agent_deps in Hdeps. injection Hdeps as Ha' Hags'.
  split.
  - unfold modelItems. rewrite Hags', Ha', Hags, Ha.
    apply truthy_Some in Hat. rewrite Hat, Hcfg. simpl.
    rewrite bool_decide_eq_true_2 by exact Hp. now rewrite Hl.
  - rewrite Hin. intros H. now apply app_eq_nil in H as [_ H].
Qed.


(** ** Saving after an agent change *)

(** X23. After the agent select is put on another agent of the catalog,
    "Apply" is never rejected: [handleSave] writes that agent with its first
    provider, its first model, the defaults of its two schemas (each key
    with the default of its spec, a parameter named [__proto__] left out)
    and the stored provider keys, and then makes its four other calls. *)
Theorem save_after_agent_change_commits_defaults
    (fuel : nat) (w : World) (ags : AvailableAgents) (A B : string)
    (agentB : AgentConfig) (entry0 : SupportedModels) (model0 : string)
    (currentSettings : option SurfSettings) :
  agents (ui w) = Some ags ->
  selectedAgent (ui w) = Some A -> A <> B ->
  B <> "" -> ags !! B = Some agentB ->
  head (supported_models agentB) = Some entry0 ->
  head (models entry0) = Some model0 ->
  provider entry0 <> "" -> model0 <> "" ->
  4 <= fuel ->
  exists w',
    step fuel (SelectAgent B) w = Settled w'
    /\ handleSave (ui w') currentSettings
       = [ updateSettings
             {| st_selectedAgent := B;
                st_selectedProvider := provider entry0;
                st_selectedModel := model0;
                st_modelSettings :=
                  cfg_default <$> delete "__proto__" (model_settings agentB);
                st_agentSettings :=
                  cfg_default <$> delete "__proto__" (agent_settings agentB);
                st_providerApiKeys :=
                  default ∅ (st_providerApiKeys <$> currentSettings) |};
           clearInitialState; resetSession; closeSettings; router_push "/" ].
Proof.
  intros Hags HA HAB HBt HB Hhd Hm Hpt Hmt Hfuel.
  rewrite <- !computeDefaults_closed.
  destruct fuel as [|[|[|[|n]]]]; try lia.
  change (S (S (S (S n)))) with (4 + n).
  unfold step. simpl event_updates. cbn [apply_updates foldl].
  destruct (settle_agent_changed n (ui w) (setSelectedAgent (Some B) (ui w))
              (inflight w) ags B agentB entry0 model0)
    as (w' & -> & _ & Ha' & Hp' & Hm' & Hms' & Hgs'); try assumption.
  { unfold agent_deps. simpl. congruence. }
  { reflexivity. }
  exists w'. split; [reflexivity|].
  unfold handleSave. rewrite Ha', Hp', Hm', Hms', Hgs'.
  apply truthy_Some in HBt, Hpt, Hmt. now rewrite HBt, Hpt, Hmt.
Qed.

(** ** [sanitizeNumber] on values within the bounds *)

(** X24. [sanitizeNumber] leaves alone every number that already satisfies
    the bounds of the spec: it only moves values that are out of range. *)
Theorem sanitizeNumber_fixes_values_in_bounds
    (config : SettingConfig) (v : number) :
  isNaN v = false ->
  within_bounds config v = true ->
  sanitizeNumber config v = v.
Proof.
  unfold within_bounds, sanitizeNumber. intros Hv Hb.
  apply andb_true_iff in Hb as [Hlo Hhi].
  assert (H1 : match cfg_max config with
               | Some max => Math_min v max
               | None => v
               end = v).
  { destruct (cfg_max config) as [hi|]; [|reflexivity].
    apply number_le_spec in Hhi as (_ & Hhi & Hlt).
    unfold Math_min. now rewrite Hv, Hhi, Hlt. }
  rewrite H1. destruct (cfg_min config) as [lo|]; [|reflexivity].
  apply number_le_spec in Hlo as (Hlo & _ & Hlt).
  unfold Math_max. now rewrite Hv, Hlo, Hlt.
Qed.

(** ** The further properties on the scenario *)

Section MoreWitnesses.
Import Scenario Persisted.

Local Ltac side := solve [reflexivity | discriminate | lia].

Lemma catalog_lookup a cfg :
  catalog !! a = Some cfg ->
  (a = "writer" /\ cfg = writer) \/ (a = "critic" /\ cfg = critic).
Proof.
  unfold catalog. rewrite lookup_insert_Some, lookup_singleton_Some.
  intros [[<- <-] | [_ [<- <-]]]; [now left | now right].
Qed.

Lemma selection_ok_scenario s a cfg :
  agents s = Some catalog -> selectedAgent s = Some a ->
  catalog !! a = Some cfg ->
  selection_ok s.
Proof.
  intros Hags Ha Hcfg ags a' Hags' Ha' _.
  assert (ags = catalog) by congruence. assert (a' = a) by congruence.
  subst ags a'. exists cfg. split; [exact Hcfg|].
  apply catalog_lookup in Hcfg as [[_ ->] | [_ ->]]; discriminate.
Qed.

Lemma catalog_valid_scenario : catalog_valid catalog.
Proof.
  intros a cfg ty key config Hcfg Hkey Hnum.
  apply catalog_lookup in Hcfg as [[_ ->] | [_ ->]]; destruct ty; simpl in Hkey.
  - apply lookup_singleton_Some in Hkey as [_ <-]. reflexivity.
  - now rewrite lookup_empty in Hkey.
  - now rewrite lookup_empty in Hkey.
  - apply lookup_singleton_Some in Hkey as [_ <-]. discriminate.
Qed.

Lemma settings_in_bounds_loaded : settings_in_bounds (ui loaded).
Proof.
  intros ags a cfg [= <-] [= <-] Hcfg.
  apply catalog_lookup in Hcfg as [[_ ->] | [? _]]; [|discriminate].
  split.
  - apply (defaults_in_bounds catalog "writer" writer model);
      [apply catalog_valid_scenario | reflexivity].
  - apply (defaults_in_bounds catalog "writer" writer agent);
      [apply catalog_valid_scenario | reflexivity].
Qed.

Lemma step_never_throws_witness :
  exists w', step 4 (SelectAgent "critic") loaded = Settled w'
             /\ selection_ok (ui w')
             /\ agents (ui w') = agents (ui loaded).
Proof.
  apply (step_never_throws 4 (SelectAgent "critic") loaded).
  - now apply (selection_ok_scenario _ "writer" writer).
  - intros v [= <-]. now apply (selection_ok_scenario _ "critic" critic).
  - lia.
Defined.

Lemma select_agent_without_models_throws_witness :
  step 1 (SelectAgent "editor") loaded = Crashed.
Proof.
  apply (select_agent_without_models_throws 0 loaded catalog "editor");
    [reflexivity | discriminate | discriminate | left; reflexivity].
Defined.

Lemma select_model_restarts_fetch_on_ollama_witness :
  exists w',
    step 2 (SelectModel "mistral") on_ollama = Settled w'
    /\ selectedModel (ui w') = Some "mistral"
    /\ inflight w' = inflight on_ollama ++ [request "mistral" "writer"].
Proof.
  destruct (select_model_restarts_fetch_on_ollama 2 on_ollama "mistral")
    as (w' & Hstep & Hm & _ & Ho & _); [discriminate | lia |].
  exists w'. split; [exact Hstep|]. split; [exact Hm|].
  now apply Ho.
Defined.

Lemma answer_that_moves_model_refetches_witness :
  exists w',
    step 2 (FetchSettles 0 (ResponseOk (Some [mistral; llama2]))) on_ollama
    = Settled w'
    /\ selectedModel (ui w') = Some "mistral"
    /\ isLoadingOllamaModels (ui w') = true
    /\ inflight w' = [request "llama2" "writer"; request "mistral" "writer"].
Proof.
  destruct (answer_that_moves_model_refetches 2 on_ollama 0
              (request "gpt-4" "writer") mistral [llama2])
    as (w' & Hstep & Hm & _ & Hl & Hin);
    [reflexivity | reflexivity | reflexivity | discriminate | lia |].
  exists w'. repeat split; assumption.
Defined.

Lemma settled_request_clears_loading_flag_witness :
  exists w',
    step 1 (FetchSettles 1 (ResponseOk (Some [mistral; llama2]))) on_ollama
    = Settled w'
    /\ isLoadingOllamaModels (ui w') = false
    /\ inflight w' = [request "gpt-4" "writer"].
Proof.
  destruct (settled_request_clears_loading_flag 1 on_ollama 1
              (request "llama2" "writer") (ResponseOk (Some [mistral; llama2])))
    as (w' & Hstep & Hl & _ & Hin); [reflexivity | | lia |].
  - intros model0 rest [= <- <-]. reflexivity.
  - exists w'. repeat split; assumption.
Defined.

Lemma hosted_provider_starts_no_request_witness :
  exists w',
    step 3 (SelectProvider "openai") on_ollama = Settled w'
    /\ inflight w' = inflight on_ollama
    /\ isLoadingOllamaModels (ui w') = true.
Proof.
  destruct (hosted_provider_starts_no_request 3 on_ollama "openai")
    as (w' & Hstep & _ & Hin & _ & Hl & _);
    [discriminate | now apply (selection_ok_scenario _ "writer" writer) | lia |].
  exists w'. repeat split; assumption.
Defined.

Lemma switch_to_ollama_starts_request_witness :
  exists w' later,
    step 3 (SelectProvider "ollama") loaded = Settled w'
    /\ isLoadingOllamaModels (ui w') = true
    /\ inflight w' = request "gpt-4" "writer" :: later.
Proof.
  destruct (switch_to_ollama_starts_request 3 loaded)
    as (w' & later & Hstep & _ & Hl & _ & Hin);
    [discriminate | now apply (selection_ok_scenario _ "writer" writer) | lia |].
  exists w', later. repeat split; assumption.
Defined.


Lemma label_by_position_witness :
  String.length (label "max_tokens") = 10
  /\ String.get 3 (label "max_tokens") = String.get 0 " ".
Proof.
  destruct (label_by_position "max_tokens" eq_refl) as [Hlen Hget].
  split; [exact Hlen | rewrite (Hget 3); reflexivity].
Defined.

Lemma numeric_settings_stay_within_bounds_witness :
  exists w',
    step 4 (SettingChange model "temperature" (VNum (Finite 1))) loaded
    = Settled w'
    /\ settings_in_bounds (ui w').
Proof.
  apply (numeric_settings_stay_within_bounds 4
           (SettingChange model "temperature" (VNum (Finite 1))) loaded).
  - now apply (selection_ok_scenario _ "writer" writer).
  - intros ags [= <-]. apply catalog_valid_scenario.
  - apply settings_in_bounds_loaded.
  - exists (SliderValueChange (Finite (3 # 2))). split.
    + intros x [= <-]. reflexivity.
    + reflexivity.
  - lia.
Defined.

Lemma rewrites_are_absolute_witness :
  exists rest,
    "https://surf-api.onrender.com/docs" = "https://" +:+ rest.
Proof.
  destruct (rewrites_are_absolute (Some "surf-api.onrender.com")
              {| source := "/docs";
                 destination := "https://surf-api.onrender.com/docs" |})
    as (_ & [[rest H] | H]).
  - apply list_elem_of_further, list_elem_of_here.
  - discriminate.
  - exact H.
Defined.

Lemma save_key_stores_for_that_provider_only_witness :
  exists settings',
    saveKeyClicked (Some earlier) "anthropic" "sk-2" = (FullSettings settings', "")
    /\ st_providerApiKeys settings' !! "anthropic" = Some "sk-2"
    /\ st_providerApiKeys settings' !! "openai" = Some "sk-1".
Proof.
  destruct (save_key_stores_for_that_provider_only earlier "anthropic" "sk-2")
    as (settings' & Hsave & Hkey & Hother & _); [side .. |].
  exists settings'. split; [exact Hsave|]. split; [exact Hkey|].
  rewrite Hother by discriminate. reflexivity.
Defined.

Lemma clear_key_removes_that_key_only_witness :
  st_providerApiKeys (clearKeyClicked earlier "openai") !! "openai" = None
  /\ apiKeySection (Some "openai") (Some (clearKeyClicked earlier "openai")) ""
     = Some {| clear_offered := false; placeholder := EnterKey "openai";
               save_offered := false |}
  /\ apiKeySection (Some "toString")
       (Some (clearKeyClicked earlier "toString")) ""
     = Some {| clear_offered := true; placeholder := Masked;
               save_offered := false |}.
Proof.
  destruct (clear_key_removes_that_key_only earlier "openai" "")
    as (Hkey & _ & _ & Hview & _); [side .. |].
  destruct (clear_key_removes_that_key_only earlier "toString" "")
    as (_ & _ & _ & _ & Hinherited & _); [side .. |].
  split; [exact Hkey|]. split.
  - apply Hview. intros H. pose proof (bool_decide_pack _ H) as H'.
    vm_compute in H'. exact H'.
  - apply Hinherited. apply (bool_decide_unpack _). vm_compute. exact I.
Defined.

Lemma first_use_selects_first_agent_witness :
  exists w',
    (catalogSettles 4 None (Some entries) (Mount.mounted None)).1 = Settled w'
    /\ selectedAgent (ui w') = Some "writer"
    /\ selectedProvider (ui w') = Some "openai"
    /\ selectedModel (ui w') = Some "gpt-4".
Proof.
  destruct (first_use_selects_first_agent 4 "writer" writer
              [("critic", critic)]
              {| provider := "openai"; models := ["gpt-4"] |} "gpt-4")
    as (w' & Hsettles & _ & Ha & Hp & Hm & _);
    [side .. |].
  exists w'. unfold entries. rewrite Hsettles. repeat split; assumption.
Defined.

Lemma empty_catalog_selects_nothing_witness :
  exists w',
    catalogSettles 2 None (Some []) (Mount.mounted None) = (Settled w', None)
    /\ selectedAgent (ui w') = None.
Proof.
  destruct (empty_catalog_selects_nothing 2) as (w' & H & _ & Ha & _); [lia|].
  exists w'. split; assumption.
Defined.

Lemma persisted_agent_missing_from_catalog_throws_witness :
  catalogSettles 1 (Some stale) (Some entries) (Mount.mounted (Some stale))
  = (Crashed, None).
Proof.
  apply (persisted_agent_missing_from_catalog_throws 0 stale entries);
    [discriminate | reflexivity].
Defined.

Lemma catalog_arrival_overwrites_persisted_selection_witness :
  exists w',
    catalogSettles 4 (Some earlier) (Some entries) (Mount.mounted (Some earlier))
    = (Settled w', None)
    /\ selectedProvider (ui w') = Some "openai"
    /\ selectedModel (ui w') = Some "gpt-4"
    /\ modelSettings (ui w') = Some {[ "temperature" := VNum (Finite (7 # 10)) ]}.
Proof.
  destruct (catalog_arrival_overwrites_persisted_selection 4 earlier entries
              writer {| provider := "openai"; models := ["gpt-4"] |} "gpt-4")
    as (w' & Hsettles & _ & Hp & Hm & Hms & _);
    [side .. |].
  exists w'. repeat split; assumption.
Defined.

Lemma hosted_provider_selects_an_offered_model_witness :
  exists w' items,
    step 3 (SelectProvider "openai") on_ollama = Settled w'
    /\ modelItems (ui w') = Some items
    /\ selectable items = ["gpt-4"]
    /\ selectedModel (ui w') = Some "gpt-4".
Proof.
  destruct (hosted_provider_selects_an_offered_model 3 on_ollama catalog
              "writer" writer "openai"
              {| provider := "openai"; models := ["gpt-4"] |} "gpt-4")
    as (w' & items & Hstep & Hitems & Hsel & _ & Hm & _);
    [side .. |].
  exists w', items. repeat split; assumption.
Defined.

Lemma only_loading_item_after_switch_to_ollama_witness :
  exists w',
    step 3 (SelectProvider "ollama") loaded = Settled w'
    /\ modelItems (ui w')
       = Some [ {| item_value := "loading";
                   item_label := "Loading Ollama models...";
                   item_disabled := true |} ].
Proof.
  destruct (only_loading_item_after_switch_to_ollama 3 loaded catalog
              "writer" writer)
    as (w' & Hstep & Hitems & _); [side .. |].
  exists w'. split; assumption.
Defined.


Lemma save_after_agent_change_commits_defaults_witness :
  exists w',
    step 4 (SelectAgent "critic") loaded = Settled w'
    /\ head (handleSave (ui w') (Some earlier))
       = Some (updateSettings
                 {| st_selectedAgent := "critic";
                    st_selectedProvider := "ollama";
                    st_selectedModel := "phi3";
                    st_modelSettings := ∅;
                    st_agentSettings := {[ "style" := VStr "terse" ]};
                    st_providerApiKeys := {[ "openai" := "sk-1" ]} |}).
Proof.
  destruct (save_after_agent_change_commits_defaults 4 loaded catalog
              "writer" "critic" critic
              {| provider := "ollama"; models := ["phi3"] |} "phi3"
              (Some earlier))
    as (w' & Hstep & Hsave);
    [side .. |].
  exists w'. split; [exact Hstep|]. now rewrite Hsave.
Defined.

Lemma sanitizeNumber_fixes_values_in_bounds_witness :
  sanitizeNumber temperature (Finite (1 # 2)) = Finite (1 # 2).
Proof.
  apply (sanitizeNumber_fixes_values_in_bounds temperature (Finite (1 # 2)));
    reflexivity.
Defined.

End MoreWitnesses.
